(** * dalladalla.dallacrowd: bus-stop estimation from crowd data

    A shallow embedding of [src/dalladalla/dallacrowd.py]: the [Estimator]
    class (its property setters, [estimate_stops], [route_dist]) and the
    module-level function [nearest_street].

    Conventions of the embedding.
    - A Python float is an exact rational ([Q]): no rounding, no NaN, no
      overflow.  Every statement below is about that idealisation.
    - A two-dimensional [numpy] array is the list of its rows.
    - A call that can raise returns a value of type [py]; a method of
      [Estimator] is a function from the object's state to the state it
      leaves behind and what it returned or raised, so that an exception
      raised half-way keeps the attributes assigned before it.
    - [numpy], [scipy.signal.argrelmax] and the built-ins are transcribed
      from their documented behaviour; [dalladalla.weightedkde] (the density
      fit) and the OSRM web service are parameters of the embedding. *)

From Stdlib Require Import QArith Qminmax Qabs Lqa ZArith Lia.
From stdpp Require Import base option list sorting.

Open Scope Q_scope.

(** ** Exceptions and results *)

(** The exception classes that occur.  [InvalidInputError] is the class the
    specification names; no statement of [dallacrowd.py] raises it. *)
Inductive exn : Type :=
  | AttributeError
  | ValueError
  | TypeError
  | IndexError
  | InvalidInputError.

Inductive py (A : Type) : Type :=
  | Return (a : A)
  | Raise (e : exn).
Arguments Return {A} a.
Arguments Raise {A} e.

Definition py_bind {A B : Type} (m : py A) (k : A → py B) : py B :=
  match m with
  | Return a => k a
  | Raise e => Raise e
  end.

#[export] Instance py_ret_inst : MRet py := @Return.
#[export] Instance py_bind_inst : MBind py := λ A B k m, py_bind m k.
#[export] Instance py_fmap_inst : FMap py := λ A B f m, py_bind m (λ a, Return (f a)).

Definition raises {A : Type} (r : py A) : Prop := ∃ e, r = Raise e.

(** ** Geometries *)

(** A [shapely] point; [xy] is its coordinate accessor. *)
Record Point : Type := mkPoint { point_x : Q; point_y : Q }.

Definition xy (p : Point) : list Q := [point_x p; point_y p].

(** A [GeoSeries] of points, in order. *)
Abbreviation GeoSeries := (list Point) (only parsing).

(** ** The fragment of numpy that the module uses *)

Abbreviation array2 := (list (list Q)) (only parsing).

Definition shape (a : array2) : nat * nat :=
  (length a, match a with [] => 0%nat | r :: _ => length r end).

(** [a.T] for an array of [ncols] columns. *)
Definition transpose (ncols : nat) (a : array2) : array2 :=
  (λ j : nat, (λ r : list Q, nth j r 0) <$> a) <$> seq 0 ncols.

Definition ravel (a : array2) : list Q := concat a.

(** [np.reshape(l, (r, c))], for [l] of [r * c] elements. *)
Fixpoint reshape (r c : nat) (l : list Q) : array2 :=
  match r with
  | O => []
  | S r' => take c l :: reshape r' c (drop c l)
  end.

(** [min] and [max] of a row; numpy refuses to reduce an empty one. *)
Definition row_min (r : list Q) : py Q :=
  match r with
  | [] => Raise ValueError
  | v :: r' => Return (foldl Qmin v r')
  end.

Definition row_max (r : list Q) : py Q :=
  match r with
  | [] => Raise ValueError
  | v :: r' => Return (foldl Qmax v r')
  end.

(** [a.min(axis=1)] and [a.max(axis=1)]. *)
Definition min_axis1 (a : array2) : py (list Q) := mapM row_min a.
Definition max_axis1 (a : array2) : py (list Q) := mapM row_max a.

(** [np.linspace(start, stop, num)]: [num] evenly spaced samples, the last
    one set to [stop]. *)
Definition linspace (start stop : Q) (num : Z) : py (list Q) :=
  if (num <? 0)%Z then Raise ValueError
  else Return
    match Z.to_nat num with
    | O => []
    | S O => [start]
    | S (S k) =>
        let div := S k in
        let step := (stop - start) / inject_Z (Z.of_nat div) in
        ((λ i, inject_Z (Z.of_nat i) * step + start) <$> seq 0 div) ++ [stop]
    end.

(** [np.meshgrid(x, y)]: [xx[i][j] = x[j]] and [yy[i][j] = y[i]]. *)
Definition meshgrid (x y : list Q) : array2 * array2 :=
  ((λ _ : Q, x) <$> y, (λ yi : Q, (λ _ : Q, yi) <$> x) <$> y).

(** Truth value of an array ([bool(a)]): ambiguous, hence an error, for
    more than one element; the element's for one; false for none (with a
    deprecation warning, an error in recent versions of numpy). *)
Definition truth (a : array2) : py bool :=
  match ravel a with
  | [] => Return false
  | [v] => Return (negb (Qeq_bool v 0))
  | _ :: _ :: _ => Raise ValueError
  end.

(** [not o] for an attribute that holds [None] or an array. *)
Definition py_not (o : option array2) : py bool :=
  match o with
  | None => Return true
  | Some a => negb <$> truth a
  end.

Definition zeros_like (a : array2) : array2 :=
  (λ r : list Q, (λ _ : Q, 0) <$> r) <$> a.

Definition Qgtb (a b : Q) : bool := negb (Qle_bool a b).

(** Index clipping of [take(..., mode='clip')] on an axis of [n] entries. *)
Definition clip (n : nat) (k : Z) : nat :=
  Z.to_nat (Z.max 0 (Z.min k (Z.of_nat n - 1))).

(** [data.take(locs + shift, axis=1, mode='clip')] *)
Definition take_axis1 (data : array2) (shift : Z) : array2 :=
  (λ row, (λ j, nth (clip (length row) (Z.of_nat j + shift)) row 0)
            <$> seq 0 (length row)) <$> data.

(** [data.take(locs + shift, axis=0, mode='clip')] *)
Definition take_axis0 (data : array2) (shift : Z) : array2 :=
  (λ i, nth (clip (length data) (Z.of_nat i + shift)) data [])
    <$> seq 0 (length data).

Definition greater (a b : array2) : list (list bool) :=
  zip_with (zip_with Qgtb) a b.

Definition and_arrays (a b : list (list bool)) : list (list bool) :=
  zip_with (zip_with andb) a b.

(** [scipy.signal._peak_finding._boolrelextrema(data, np.greater, axis,
    order=1, mode='clip')]: the entries greater than both neighbours along
    the axis, the neighbour of an edge entry being the entry itself. *)
Definition boolrelextrema (data : array2) (axis : nat) : list (list bool) :=
  let take := match axis with O => take_axis0 | _ => take_axis1 end in
  let plus := take data 1%Z in
  let minus := take data (-1)%Z in
  and_arrays (greater data plus) (greater data minus).

(** Column indices of the true entries of a row, from column [j] on. *)
Fixpoint nonzero_row (j : nat) (row : list bool) : list nat :=
  match row with
  | [] => []
  | b :: row' => (if b then [j] else []) ++ nonzero_row (S j) row'
  end.

(** The true cells of a boolean array in row-major order. *)
Definition nonzero_cells (b : list (list bool)) : list (nat * nat) :=
  concat (imap (λ i row, (λ j, (i, j)) <$> nonzero_row 0 row) b).

(** [np.nonzero(b)]: the row indices and the column indices. *)
Definition nonzero (b : list (list bool)) : list nat * list nat :=
  (fst <$> nonzero_cells b, snd <$> nonzero_cells b).

(** [scipy.signal.argrelmax(data, axis)] *)
Definition argrelmax (data : array2) (axis : nat) : list nat * list nat :=
  nonzero (boolrelextrema data axis).

(** [a[rows, cols] = v] for index arrays [rows] and [cols] that are in
    range (the indices written here always are). *)
Definition index_put (a : array2) (idx : list nat * list nat) (v : Q) : array2 :=
  foldl (λ acc ij, alter (λ row, <[ij.2 := v]> row) ij.1 acc) a (zip idx.1 idx.2).

Definition add_arrays (a b : array2) : array2 := zip_with (zip_with Qplus) a b.

(** [a == v] *)
Definition eq_scalar (a : array2) (v : Q) : list (list bool) :=
  (λ r : list Q, (λ u : Q, Qeq_bool u v) <$> r) <$> a.

Fixpoint select_row (r : list Q) (m : list bool) : list Q :=
  match r, m with
  | v :: r', b :: m' => (if b then [v] else []) ++ select_row r' m'
  | _, _ => []
  end.

(** [a[mask]] for a boolean [mask]: the selected entries in row-major
    order; the shapes have to agree. *)
Definition bool_index (a : array2) (mask : list (list bool)) : py (list Q) :=
  if decide (shape a = (length mask, match mask with [] => 0%nat | r :: _ => length r end))
  then Return (concat (zip_with select_row a mask))
  else Raise IndexError.

(** A one- or two-dimensional array, where the code can produce either. *)
Inductive ndarray : Type :=
  | A1 (v : list Q)
  | A2 (a : array2).

(** [a.T]: a one-dimensional array is its own transpose. *)
Definition T (a : ndarray) : ndarray :=
  match a with
  | A1 v => A1 v
  | A2 rows => A2 (transpose (shape rows).2 rows)
  end.

(** A number of a decoded JSON document: Python reads [2] as an [int] and
    [2.0] as a [float]. *)
Inductive number : Type :=
  | Int (z : Z)
  | Float (q : Q).

Definition value (n : number) : Q :=
  match n with
  | Int z => inject_Z z
  | Float q => q
  end.

Definition is_int (n : number) : bool :=
  match n with
  | Int _ => true
  | Float _ => false
  end.

(** What a function handed to [np.apply_along_axis] returns here: a Python
    [int] or a list of numbers. *)
Inductive pyval : Type :=
  | PyInt (z : Z)
  | PyList (l : list number).

(** Conversion of a float to the integer type of an [int] array. *)
Definition trunc (q : Q) : Q := inject_Z (Z.quot (Qnum q) (Zpos (Qden q))).

(** [np.asanyarray(l).dtype] is an integer type: [l] holds [int]s only,
    and at least one (the empty list gives [float64]). *)
Definition integral (l : list number) : bool :=
  match l with
  | [] => false
  | _ => forallb is_int l
  end.

(** A number as it is stored into an array of integer type ([to_int]) or
    of [float64]. *)
Definition store (to_int : bool) (n : number) : Q :=
  if to_int then trunc (value n) else value n.

(** [np.apply_along_axis(func1d, 1, arr)]: [func1d] is applied to each row.
    The first result fixes the shape and the type of the output: one entry
    per row for a scalar, one row per row for a list, of integer type when
    the first result holds [int]s only.  Each later result is assigned into
    its slot, converted to the type of the output, and numpy refuses a
    sequence where the slot is a scalar and a row of another length that
    cannot be broadcast.  An array without rows is refused outright. *)
Definition apply_along_axis (func1d : list Q → pyval) (arr : array2) : py ndarray :=
  match arr with
  | [] => Raise ValueError
  | r0 :: rest =>
      match func1d r0 with
      | PyInt z0 =>
          vs ← mapM (λ r : list Q,
                  match func1d r with
                  | PyInt z => Return (inject_Z z)
                  | PyList [v] => Return (store true v)
                  | PyList _ => Raise ValueError
                  end) rest;
          Return (A1 (inject_Z z0 :: vs))
      | PyList l0 =>
          rows ← mapM (λ r : list Q,
                  match func1d r with
                  | PyInt z => Return (replicate (length l0) (inject_Z z))
                  | PyList l =>
                      if decide (length l = length l0)
                      then Return (store (integral l0) <$> l)
                      else match l with
                           | [v] => Return (replicate (length l0)
                                              (store (integral l0) v))
                           | _ => Raise ValueError
                           end
                  end) rest;
          Return (A2 ((value <$> l0) :: rows))
      end
  end.

(** [point_list = a.tolist()] followed by
    [list(zip(point_list[1], point_list[0]))]: the subscripts need two
    entries, and [zip] needs them to be lists. *)
Definition zip_point_list (a : ndarray) : py (list (Q * Q)) :=
  match a with
  | A1 (_ :: _ :: _) => Raise TypeError
  | A1 _ => Raise IndexError
  | A2 (r0 :: r1 :: _) => Return (zip r1 r0)
  | A2 _ => Raise IndexError
  end.

(** The built-in [min] of a list. *)
Definition py_min (l : list Q) : py Q :=
  match l with
  | [] => Raise ValueError
  | v :: l' => Return (foldl (λ m d, if Qgtb m d then d else m) v l')
  end.

(** ** The Estimator *)

(** What [kde.gaussian_kde] is given as its data: the coordinate array, or
    the geometries themselves. *)
Inductive dataset : Type :=
  | DArray (a : array2)
  | DGeo (g : GeoSeries).

(** The attributes of an [Estimator]. *)
Record Estimator : Type := mkEstimator {
  _stop_prob : option array2;
  _points : GeoSeries;
  _weights : option (list Q);
  __p_coordinates : array2;
  __boundaries : list Q
}.

(** A method: from the object's state to the state it leaves and its
    outcome. *)
Definition method (A : Type) : Type := Estimator → Estimator * py A.

Definition m_ret {A : Type} (a : A) : method A := λ self, (self, Return a).

Definition m_bind {A B : Type} (m : method A) (k : A → method B) : method B :=
  λ self,
    match m self with
    | (self', Return a) => k a self'
    | (self', Raise e) => (self', Raise e)
    end.

Definition lift {A : Type} (r : py A) : method A := λ self, (self, r).

Definition get : method Estimator := λ self, (self, Return self).

Declare Scope method_scope.
Delimit Scope method_scope with method.
Notation "x <- m ;; k" := (m_bind m (λ x, k))
  (at level 100, m at next level, k at level 200, right associativity) : method_scope.
Notation "m ;;; k" := (m_bind m (λ _, k))
  (at level 100, k at level 200, right associativity) : method_scope.

Definition set__stop_prob (v : option array2) : method unit :=
  λ self, (mkEstimator v (_points self) (_weights self)
                       (__p_coordinates self) (__boundaries self), Return tt).

Definition set__points (v : GeoSeries) : method unit :=
  λ self, (mkEstimator (_stop_prob self) v (_weights self)
                       (__p_coordinates self) (__boundaries self), Return tt).

Definition set__weights (v : option (list Q)) : method unit :=
  λ self, (mkEstimator (_stop_prob self) (_points self) v
                       (__p_coordinates self) (__boundaries self), Return tt).

Definition set__p_coordinates (v : array2) : method unit :=
  λ self, (mkEstimator (_stop_prob self) (_points self) (_weights self)
                       v (__boundaries self), Return tt).

Definition set__boundaries (v : list Q) : method unit :=
  λ self, (mkEstimator (_stop_prob self) (_points self) (_weights self)
                       (__p_coordinates self) v, Return tt).

(** The read-only properties. *)
Definition points (self : Estimator) : GeoSeries := _points self.
Definition weights (self : Estimator) : option (list Q) := _weights self.
Definition stop_prob (self : Estimator) : option array2 := _stop_prob self.
Definition boundaries (self : Estimator) : list Q := __boundaries self.

(** [@points.setter].  [value] is [None] or a [GeoSeries]; [None] has no
    attribute [geometry].  [np.array([p.xy ...]).reshape((N, 2))] is the
    list of the points' coordinate pairs. *)
Definition points_setter (value : option GeoSeries) : method unit :=
  (match value with
   | None => lift (Raise AttributeError)
   | Some geometry =>
       set__p_coordinates (transpose 2 (xy <$> geometry));;;
       set__points geometry;;;
       self <- get;;
       mins <- lift (min_axis1 (__p_coordinates self));;
       maxs <- lift (max_axis1 (__p_coordinates self));;
       let flat := mins ++ maxs in
       set__boundaries ((λ k : nat, nth k flat 0) <$> [0; 2; 1; 3]%nat);;;
       set__stop_prob None
   end)%method.

(** [@weights.setter] *)
Definition weights_setter (value : option (list Q)) : method unit :=
  (set__weights value;;;
   set__stop_prob None)%method.

(** [Estimator.__init__]: the attributes of the new object do not exist
    before they are assigned; the placeholders below are never read. *)
Definition __init__ (input_points : option GeoSeries)
    (weights : option (list Q)) : py Estimator :=
  let self := mkEstimator None [] None [] [] in
  match (set__stop_prob None;;;
         points_setter input_points;;;
         weights_setter weights)%method self with
  | (self', Return _) => Return self'
  | (_, Raise e) => Raise e
  end.

Section Collaborators.

(** [dalladalla.weightedkde.gaussian_kde(dataset, weights=..., bw_method=...)]:
    the fit fails or gives a density, evaluated point by point. *)
Variable gaussian_kde : dataset → option (list Q) → Q → py (Q → Q → Q).

(** The OSRM service as [nearest_street] sees it: the outcome of
    [requests.get(url).json()['mapped_coordinate']] for the coordinates
    put into the URL, [None] when any step of it raised. *)
Variable osrm_nearest : Q → Q → option (list number).

(** The bus routes and [point.distance(r)]. *)
Variable Route : Type.
Variable distance : Point → Route → Q.

(** [nearest_street(coordinates)] *)
Definition nearest_street (coordinates : list Q) : pyval :=
  match osrm_nearest (nth 0 coordinates 0) (nth 1 coordinates 0) with
  | Some mapped_coordinate => PyList mapped_coordinate
  | None => PyInt 0
  end.

(** Lines 87 to 93 of [estimate_stops]: the array that holds 2 where the
    surface has a relative maximum along both axes. *)
Definition maxima_out (stop_prob : array2) : array2 :=
  let maxima_x := argrelmax stop_prob 1 in
  let maxima_y := argrelmax stop_prob 0 in
  let out_x := index_put (zeros_like stop_prob) maxima_x 1 in
  let out_y := index_put (zeros_like stop_prob) maxima_y 1 in
  add_arrays out_x out_y.

(** [Estimator.estimate_stops] *)
Definition estimate_stops (weighted snap_to_street : bool)
    (resolution : Z) (kernel_width : Q) : method (list (Q * Q)) :=
  (self <- get;;
   x <- lift (linspace (nth 0 (__boundaries self) 0)
                       (nth 1 (__boundaries self) 0) resolution);;
   y <- lift (linspace (nth 2 (__boundaries self) 0)
                       (nth 3 (__boundaries self) 0) resolution);;
   let '(xx, yy) := meshgrid x y in
   unset <- lift (py_not (_stop_prob self));;
   (if unset : bool then
      pdf <- lift (if weighted
                   then gaussian_kde (DArray (__p_coordinates self))
                                     (weights self) kernel_width
                   else gaussian_kde (DGeo (points self)) None kernel_width);;
      let stop_prob := zip_with pdf (ravel xx) (ravel yy) in
      let stop_prob := reshape (shape xx).1 (shape xx).2 stop_prob in
      set__stop_prob (Some stop_prob)
    else m_ret tt);;;
   self <- get;;
   stop_prob <- lift (match _stop_prob self with
                      | Some a => Return a
                      | None => Raise AttributeError
                      end);;
   let out := maxima_out stop_prob in
   sel_x <- lift (bool_index xx (eq_scalar out 2));;
   sel_y <- lift (bool_index yy (eq_scalar out 2));;
   let stop_points := [sel_x; sel_y] in
   stop_points <- lift (if snap_to_street
                        then T <$> apply_along_axis nearest_street
                                     (transpose (shape stop_points).2 stop_points)
                        else Return (A2 stop_points));;
   lift (zip_point_list stop_points))%method.

(** [Estimator.route_dist] *)
Definition route_dist (routes : list Route) : method (list Q) :=
  (self <- get;;
   lift (mapM (λ point : Point, py_min (distance point <$> routes))
              (points self)))%method.

End Collaborators.

(** ** The density fit *)

Module weightedkde.

Section Kernel.

(** [kernel bw dx dy]: the mass that a sample contributes at the offset
    [(dx, dy)] from it under the bandwidth [bw]. *)
Variable kernel : Q → Q → Q → Q.

Definition sum (l : list Q) : Q := foldr Qplus 0 l.

(** Each sample contributes mass proportional to its weight. *)
Definition density (xs ys w : list Q) (bw : Q) : Q → Q → Q :=
  λ x y,
    sum (zip_with (λ (wi : Q) (p : Q * Q),
                     wi * kernel bw (x - p.1) (y - p.2)) w (zip xs ys))
    / sum w.

(** Modelled from the spec: [dalladalla/weightedkde.py] is not among the
    sources.  Section 4.1: the input is the point set shaped (2, N), an
    optional weight vector and a bandwidth; the fit fails with
    [InvalidInputError] if N < 2, if the weight vector's length is not
    N, if a weight is negative or if the weights sum to zero; without
    weights every point has weight 1.  Geometry objects are not a
    (2, N) array of numbers: the fit cannot do arithmetic on them. *)
Definition gaussian_kde (data : dataset) (weights : option (list Q))
    (bw_method : Q) : py (Q → Q → Q) :=
  match data with
  | DGeo _ => Raise TypeError
  | DArray [xs; ys] =>
      let n := length xs in
      if decide (n < 2)%nat then Raise InvalidInputError
      else match weights with
           | None => Return (density xs ys (replicate n 1) bw_method)
           | Some w =>
               if decide (length w ≠ n) then Raise InvalidInputError
               else if existsb (λ wi : Q, Qgtb 0 wi) w then Raise InvalidInputError
               else if Qeq_bool (sum w) 0 then Raise InvalidInputError
               else Return (density xs ys w bw_method)
           end
  | DArray _ => Raise InvalidInputError
  end.

End Kernel.

(** A rational bell-shaped kernel, for evaluating the model on concrete
    inputs (the Gaussian's values are not rational). *)
Definition bell (bw dx dy : Q) : Q :=
  1 / (1 + (dx * dx + dy * dy) / (bw * bw)).

End weightedkde.

(** ** Vocabulary of the statements *)

(** [m] is a least (greatest) entry of [l]. *)
Definition is_min (m : Q) (l : list Q) : Prop := m ∈ l ∧ ∀ v, v ∈ l → m <= v.
Definition is_max (m : Q) (l : list Q) : Prop := m ∈ l ∧ ∀ v, v ∈ l → v <= m.

(** The boundaries [(xmin, xmax, ymin, ymax)] of a point set. *)
Definition bounds_of (geometry : GeoSeries) (b : list Q) : Prop :=
  ∃ xmin xmax ymin ymax,
    b = [xmin; xmax; ymin; ymax] ∧
    is_min xmin (point_x <$> geometry) ∧ is_max xmax (point_x <$> geometry) ∧
    is_min ymin (point_y <$> geometry) ∧ is_max ymax (point_y <$> geometry).

(** The state that a completed assignment to [points] leaves: the point set
    is not empty and the boundaries are those of the point set. *)
Definition points_assigned (self : Estimator) : Prop :=
  _points self ≠ [] ∧ bounds_of (_points self) (__boundaries self).

(** Entry [(i, j)] of an array, and with a default. *)
Definition entry (a : array2) (i j : nat) : Q := nth j (nth i a []) 0.
Definition cell {A : Type} (b : list (list A)) (i j : nat) : option A :=
  b !! i ≫= λ row, row !! j.

(** The lengths of the rows. *)
Definition lens {A : Type} (a : list (list A)) : list nat := length <$> a.

(** The array [a] has [nrows] rows of [ncols] entries. *)
Definition rect {A : Type} (a : list (list A)) (nrows ncols : nat) : Prop :=
  lens a = replicate nrows ncols.

(** The cells that [estimate_stops] turns into stop points. *)
Definition candidate_cells (stop_prob : array2) : list (nat * nat) :=
  nonzero_cells (eq_scalar (maxima_out stop_prob) 2).

(** Entry [(i, j)] of a surface of [ncols] columns is a strict local
    maximum along both axes: it has a neighbour on either side along each
    axis and is strictly greater than all four. *)
Definition strict_local_max (data : array2) (ncols i j : nat) : Prop :=
  (0 < i ∧ S i < length data ∧ 0 < j ∧ S j < ncols)%nat ∧
  entry data (i - 1) j < entry data i j ∧
  entry data (S i) j < entry data i j ∧
  entry data i (j - 1) < entry data i j ∧
  entry data i (S j) < entry data i j.

(** The state [self] with [data] as its cached surface. *)
Definition with_stop_prob (data : array2) (self : Estimator) : Estimator :=
  mkEstimator (Some data) (_points self) (_weights self)
              (__p_coordinates self) (__boundaries self).

(** A boolean as the array entry written for it. *)
Definition b2q (b : bool) : Q := if b then 1 else 0.

(** The list that an outcome holds. *)
Definition unwrap {A : Type} (r : py (list A)) : list A :=
  match r with Return l => l | Raise _ => [] end.

(** A coordinate pair as returned, [(y, x)], lies within the boundaries. *)
Definition within (b : list Q) (p : Q * Q) : Prop :=
  nth 0 b 0 <= p.2 ∧ p.2 <= nth 1 b 0 ∧ nth 2 b 0 <= p.1 ∧ p.1 <= nth 3 b 0.

(** Lines 95 to 98 of [estimate_stops], from the selected [x] and [y]
    coordinates to the list that is returned. *)
Definition finish_stops (osrm_nearest : Q → Q → option (list number))
    (snap_to_street : bool) (sel_x sel_y : list Q) : py (list (Q * Q)) :=
  (if snap_to_street
   then T <$> apply_along_axis (nearest_street osrm_nearest)
                (transpose (shape [sel_x; sel_y]).2 [sel_x; sel_y])
   else Return (A2 [sel_x; sel_y])) ≫= zip_point_list.



(** Row-major order of grid cells, and the order of returned pairs
    [(y, x)] by [y], then by [x]. *)
Definition lex_lt (a b : nat * nat) : Prop :=
  (a.1 < b.1)%nat ∨ (a.1 = b.1 ∧ (a.2 < b.2)%nat).

Definition yx_lt (p q : Q * Q) : Prop :=
  p.1 < q.1 ∨ (p.1 == q.1 ∧ p.2 < q.2).

(** ** Inputs for evaluation *)

Module Sample.

(** Four corner points and one in the middle. *)
Definition cross : GeoSeries :=
  [mkPoint 0 0; mkPoint 2 0; mkPoint 0 2; mkPoint 2 2; mkPoint 1 1].

Definition fit : dataset → option (list Q) → Q → py (Q → Q → Q) :=
  weightedkde.gaussian_kde weightedkde.bell.

(** A routing service that answers no request. *)
Definition offline : Q → Q → option (list number) := λ _ _, None.

(** The estimator [Estimator(cross)] and [Estimator(cross, ones)]. *)
Definition estimator : Estimator :=
  mkEstimator None cross None [[0; 2; 0; 2; 1]; [0; 0; 2; 2; 1]] [0; 2; 0; 2].

Definition estimator_ones : Estimator :=
  mkEstimator None cross (Some [1; 1; 1; 1; 1])
              [[0; 2; 0; 2; 1]; [0; 0; 2; 2; 1]] [0; 2; 0; 2].

(** The first call of [estimate_stops] on it, on a grid of 3 by 3. *)
Definition first_run : Estimator * py (list (Q * Q)) :=
  estimate_stops fit offline true false 3 (1 # 10) estimator.

(** Two corner points and two points inside, [Estimator(square)]. *)
Definition square : GeoSeries :=
  [mkPoint 0 0; mkPoint 4 4; mkPoint 3 1; mkPoint 1 3].

Definition estimator2 : Estimator :=
  mkEstimator None square None [[0; 4; 3; 1]; [0; 4; 1; 3]] [0; 4; 0; 4].

(** The first call of [estimate_stops] on it, on a grid of 5 by 5. *)
Definition second_run : Estimator * py (list (Q * Q)) :=
  estimate_stops fit offline true false 5 (1 # 10) estimator2.

(** [estimate_stops(resolution=1)] on [Estimator(cross)], and the state
    after the assignment of an empty point set that follows it. *)
Definition coarse_run : Estimator * py (list (Q * Q)) :=
  estimate_stops fit offline true false 1 (1 # 10) estimator.

Definition emptied : Estimator := (points_setter (Some []) coarse_run.1).1.

(** A routing service that moves a point by a half, and fails for the
    requests with [x = x0]. *)
Definition down_at (x0 : Q) : Q → Q → option (list number) :=
  λ a b, if Qeq_bool a x0 then None
         else Some [Float (a + (1 # 2)); Float (b + (1 # 2))].

(** [Estimator(single)] for a point set of one point. *)
Definition single : GeoSeries := [mkPoint 1 2].

Definition estimator1 : Estimator :=
  mkEstimator None single None [[1]; [2]] [1; 1; 2; 2].

(** A route is a vertical line [x = c]; the distance of a point to it. *)
Definition line_distance (p : Point) (c : Q) : Q := Qabs (point_x p - c).

(** A routing service that answers every request: with the integers
    [[2, 2]] for the requests with [x = x0], with the point moved by a
    half along both axes for the others. *)
Definition moved (x0 : Q) : Q → Q → number * number :=
  λ a b, if Qeq_bool a x0 then (Int 2, Int 2)
         else (Float (a + (1 # 2)), Float (b + (1 # 2))).

Definition online (x0 : Q) : Q → Q → option (list number) :=
  λ a b, Some [(moved x0 a b).1; (moved x0 a b).2].

End Sample.

(** * Properties *)

(** ** Least and greatest entries *)

Section Selection.

Context {A : Type} (R : A → A → Prop) (f : A → A → A).
Hypothesis R_refl : ∀ a, R a a.
Hypothesis R_trans : ∀ a b c, R a b → R b c → R a c.
Hypothesis f_selects : ∀ a b, (f a b = a ∧ R a b) ∨ (f a b = b ∧ R b a).

(** Folding a function that picks the [R]-smaller of two arguments picks
    an [R]-least entry. *)
Lemma foldl_selects (l : list A) (v : A) :
  foldl f v l ∈ v :: l ∧ ∀ u, u ∈ v :: l → R (foldl f v l) u.
Proof.
  revert v. induction l as [|a l IH]; intros v; simpl.
  - split; [left|]. by intros u ->%list_elem_of_singleton.
  - destruct (IH (f v a)) as [Hin Hle].
    destruct (f_selects v a) as [[E Hva]|[E Hva]]; rewrite E in Hin, Hle |- *.
    + split.
      * apply elem_of_cons in Hin as [->|Hin]; [left|right; by right].
      * intros u [->|[->|Hu]%elem_of_cons]%elem_of_cons.
        -- apply Hle. left.
        -- eapply R_trans; [|exact Hva]. apply Hle. left.
        -- apply Hle. by right.
    + split; [by right|].
      intros u [->|Hu]%elem_of_cons; [|by apply Hle].
      eapply R_trans; [|exact Hva]. apply Hle. left.
Qed.

End Selection.

Lemma Qmin_selects (a b : Q) : (Qmin a b = a ∧ a <= b) ∨ (Qmin a b = b ∧ b <= a).
Proof.
  unfold Qmin, GenericMinMax.gmin.
  destruct (Qcompare a b) eqn:E.
  - left. split; [done|]. apply Qeq_alt in E. rewrite E. apply Qle_refl.
  - left. split; [done|]. apply Qlt_alt in E. by apply Qlt_le_weak.
  - right. split; [done|]. apply Qgt_alt in E. by apply Qlt_le_weak.
Qed.

Lemma Qmax_selects (a b : Q) : (Qmax a b = a ∧ b <= a) ∨ (Qmax a b = b ∧ a <= b).
Proof.
  unfold Qmax, GenericMinMax.gmax.
  destruct (Qcompare a b) eqn:E.
  - left. split; [done|]. apply Qeq_alt in E. rewrite E. apply Qle_refl.
  - right. split; [done|]. apply Qlt_alt in E. by apply Qlt_le_weak.
  - left. split; [done|]. apply Qgt_alt in E. by apply Qlt_le_weak.
Qed.

Lemma Qgtb_true (a b : Q) : Qgtb a b = true ↔ b < a.
Proof.
  unfold Qgtb. rewrite negb_true_iff. split.
  - intros E. destruct (Qlt_le_dec b a) as [H|H]; [done|].
    apply Qle_bool_iff in H. congruence.
  - intros H. destruct (Qle_bool a b) eqn:E; [|done].
    apply Qle_bool_iff in E. exfalso. by apply (Qlt_not_le b a).
Qed.

Lemma Qgtb_false (a b : Q) : Qgtb a b = false ↔ a <= b.
Proof. unfold Qgtb. rewrite negb_false_iff. apply Qle_bool_iff. Qed.

Lemma Qgtb_irrefl (a : Q) : Qgtb a a = false.
Proof. apply Qgtb_false, Qle_refl. Qed.

Lemma less_selects (a b : Q) :
  ((if Qgtb a b then b else a) = a ∧ a <= b)
  ∨ ((if Qgtb a b then b else a) = b ∧ b <= a).
Proof.
  destruct (Qgtb a b) eqn:E.
  - right. split; [done|]. apply Qgtb_true in E. by apply Qlt_le_weak.
  - left. split; [done|]. by apply Qgtb_false.
Qed.

Lemma foldl_Qmin_is_min (l : list Q) (v : Q) : is_min (foldl Qmin v l) (v :: l).
Proof.
  apply (foldl_selects Qle); [apply Qle_refl|apply Qle_trans|apply Qmin_selects].
Qed.

Lemma foldl_Qmax_is_max (l : list Q) (v : Q) : is_max (foldl Qmax v l) (v :: l).
Proof.
  apply (foldl_selects (flip Qle)); unfold flip.
  - apply Qle_refl.
  - intros a b c ??. by apply Qle_trans with b.
  - apply Qmax_selects.
Qed.

Lemma py_min_cons (v : Q) (l : list Q) :
  ∃ m, py_min (v :: l) = Return m ∧ is_min m (v :: l).
Proof.
  eexists. split; [done|].
  apply (foldl_selects Qle); [apply Qle_refl|apply Qle_trans|apply less_selects].
Qed.

(** ** Sequencing in [py] *)

Lemma mapM_py_cons {A B : Type} (f : A → py B) (x : A) (l : list A) :
  mapM f (x :: l)
  = py_bind (f x) (λ y, py_bind (mapM f l) (λ k, Return (y :: k))).
Proof. done. Qed.

Lemma mapM_py_Return {A B : Type} (f : A → py B) (P : A → B → Prop) (l : list A) :
  (∀ x, x ∈ l → ∃ y, f x = Return y ∧ P x y) →
  ∃ k, mapM f l = Return k ∧ Forall2 P l k.
Proof.
  induction l as [|x l IH]; intros Hf.
  - exists []. by split.
  - destruct (Hf x) as (y & Hy & HP); [left|].
    destruct IH as (k & Hk & HF); [intros z Hz; apply Hf; by right|].
    exists (y :: k). split; [|by constructor].
    by rewrite mapM_py_cons, Hy, Hk.
Qed.

Lemma mapM_py_Raise {A B : Type} (f : A → py B) (x : A) (l : list A) (e : exn) :
  f x = Raise e → mapM f (x :: l) = Raise e.
Proof. intros H. by rewrite mapM_py_cons, H. Qed.

(** ** The setters *)

Lemma transpose_xy (geometry : GeoSeries) :
  transpose 2 (xy <$> geometry) = [point_x <$> geometry; point_y <$> geometry].
Proof. unfold transpose. simpl. by rewrite <- !list_fmap_compose. Qed.

Lemma points_setter_None self :
  points_setter None self = (self, Raise AttributeError).
Proof. done. Qed.

(** An empty point set is refused by the reduction over the coordinates,
    after the points and the coordinates have been assigned. *)
Lemma points_setter_empty self :
  points_setter (Some []) self
  = (mkEstimator (_stop_prob self) [] (_weights self) [[]; []] (__boundaries self),
     Raise ValueError).
Proof. done. Qed.

Lemma points_setter_cons self p g :
  points_setter (Some (p :: g)) self
  = (mkEstimator None (p :: g) (_weights self)
       [point_x <$> p :: g; point_y <$> p :: g]
       [foldl Qmin (point_x p) (point_x <$> g);
        foldl Qmax (point_x p) (point_x <$> g);
        foldl Qmin (point_y p) (point_y <$> g);
        foldl Qmax (point_y p) (point_y <$> g)],
     Return tt).
Proof.
  unfold points_setter. rewrite transpose_xy.
  unfold m_bind, set__p_coordinates, set__points, get, lift,
    set__boundaries, set__stop_prob. done.
Qed.

Lemma bounds_of_cons p g :
  bounds_of (p :: g)
    [foldl Qmin (point_x p) (point_x <$> g);
     foldl Qmax (point_x p) (point_x <$> g);
     foldl Qmin (point_y p) (point_y <$> g);
     foldl Qmax (point_y p) (point_y <$> g)].
Proof.
  do 4 eexists. split; [done|]. rewrite !fmap_cons.
  split_and!; first [apply foldl_Qmin_is_min | apply foldl_Qmax_is_max].
Qed.

Lemma points_assigned_ordered (self : Estimator) :
  points_assigned self →
  nth 0 (__boundaries self) 0 <= nth 1 (__boundaries self) 0 ∧
  nth 2 (__boundaries self) 0 <= nth 3 (__boundaries self) 0.
Proof.
  intros (_ & xmin & xmax & ymin & ymax & -> & [Hx _] & [_ Hx'] & [Hy _] & [_ Hy']).
  simpl. split; [by apply Hx'|by apply Hy'].
Qed.

(** ** Arrays as lists of rows *)

Lemma rect_length {A : Type} (a : list (list A)) (r c : nat) :
  rect a r c → length a = r.
Proof.
  unfold rect, lens. intros H.
  by rewrite <- (length_fmap length a), H, length_replicate.
Qed.

Lemma rect_lookup {A : Type} (a : list (list A)) (r c i : nat) (row : list A) :
  rect a r c → a !! i = Some row → length row = c.
Proof.
  unfold rect, lens. intros H Hi.
  assert ((length <$> a) !! i = Some (length row)) as Hl
    by (by rewrite list_lookup_fmap, Hi).
  rewrite H in Hl. by apply lookup_replicate in Hl as [-> _].
Qed.

Lemma rect_lookup_lt {A : Type} (a : list (list A)) (r c i : nat) :
  rect a r c → (i < r)%nat → ∃ row, a !! i = Some row ∧ length row = c.
Proof.
  intros H Hi. destruct (lookup_lt_is_Some_2 a i) as [row Hrow].
  { by rewrite (rect_length a r c). }
  exists row. split; [done|]. by eapply rect_lookup.
Qed.

Lemma rect_fmap {A B : Type} (f : A → list B) (l : list A) (c : nat) :
  (∀ v, length (f v) = c) → rect (f <$> l) (length l) c.
Proof.
  intros Hf. unfold rect, lens. induction l as [|v l IH]; [done|].
  rewrite !fmap_cons. simpl. by rewrite Hf, IH.
Qed.

Lemma lookup_lens {A B : Type} (a : list (list A)) (b : list (list B)) (i : nat) :
  lens a = lens b → length <$> a !! i = length <$> b !! i.
Proof. unfold lens. intros H. by rewrite <- !list_lookup_fmap, H. Qed.

(** Arrays with rows of the same lengths and the same entries are equal. *)
Lemma array_ext {A : Type} (a b : list (list A)) :
  lens a = lens b → (∀ i j, cell a i j = cell b i j) → a = b.
Proof.
  intros Hl Hc. apply list_eq. intros i.
  pose proof (lookup_lens a b i Hl) as Hi.
  pose proof (Hc i) as Hc'. unfold cell in Hc'.
  destruct (a !! i) as [ra|], (b !! i) as [rb|]; simpl in *; try done.
  f_equal. by apply list_eq.
Qed.

Lemma shape_lens {A B : Type} (a : list (list A)) (b : list (list B)) :
  lens a = lens b →
  (length a, match a with [] => 0%nat | r :: _ => length r end)
  = (length b, match b with [] => 0%nat | r :: _ => length r end).
Proof.
  unfold lens. intros H. destruct a as [|ra a], b as [|rb b]; simpl in *; try done.
  injection H as Hr H. apply (f_equal length) in H.
  rewrite !length_fmap in H. by rewrite H, Hr.
Qed.

Lemma shape_rect {A : Type} (a : list (list A)) (n : nat) :
  rect a n n →
  (length a, match a with [] => 0%nat | r :: _ => length r end) = (n, n).
Proof.
  intros H. pose proof (rect_length _ _ _ H) as Hn.
  destruct a as [|r a]; simpl in *; [by subst|].
  f_equal; [done|]. by apply (rect_lookup (r :: a) n n 0).
Qed.

Lemma length_concat_rect {A : Type} (a : list (list A)) (r c : nat) :
  rect a r c → length (concat a) = (r * c)%nat.
Proof.
  unfold rect, lens. revert r. induction a as [|row a IH]; intros [|r] H;
    simpl in *; try done.
  injection H as Hrow H. rewrite length_app, (IH r) by done. lia.
Qed.

Lemma rect_reshape (r c : nat) (l : list Q) :
  length l = (r * c)%nat → rect (reshape r c l) r c.
Proof.
  unfold rect, lens. revert l. induction r as [|r IH]; intros l Hl; simpl; [done|].
  rewrite IH by (rewrite length_drop; lia).
  by rewrite length_take_le by lia.
Qed.

Lemma lens_zip_with {A B C : Type} (f : A → B → C)
    (a : list (list A)) (b : list (list B)) :
  lens a = lens b → lens (zip_with (zip_with f) a b) = lens a.
Proof.
  unfold lens. revert b. induction a as [|ra a IH]; intros [|rb b]; simpl; try done.
  intros [= Hr Hl]. rewrite IH by done. f_equal.
  rewrite length_zip_with. lia.
Qed.

Lemma lens_fmap {A B : Type} (f : A → B) (a : list (list A)) :
  lens ((λ row : list A, f <$> row) <$> a) = lens a.
Proof.
  unfold lens. rewrite <- list_fmap_compose.
  apply list_fmap_ext. intros _ row _. simpl. by rewrite length_fmap.
Qed.

Lemma cell_lt {A : Type} (a : list (list A)) (r c i j : nat) (v : A) :
  rect a r c → cell a i j = Some v → (i < r)%nat ∧ (j < c)%nat.
Proof.
  intros H Hc. unfold cell in Hc.
  destruct (a !! i) as [row|] eqn:Hrow; simpl in Hc; [|done].
  pose proof (rect_lookup _ _ _ _ _ H Hrow) as Hlen.
  apply lookup_lt_Some in Hrow, Hc.
  rewrite (rect_length a r c) in Hrow by done. lia.
Qed.

Lemma cell_zip_with {A B C : Type} (f : A → B → C)
    (a : list (list A)) (b : list (list B)) (i j : nat) :
  cell (zip_with (zip_with f) a b) i j
  = cell a i j ≫= λ x, cell b i j ≫= λ y, Some (f x y).
Proof.
  unfold cell. rewrite lookup_zip_with.
  destruct (a !! i) as [ra|]; simpl; [|done].
  destruct (b !! i) as [rb|]; simpl.
  - rewrite lookup_zip_with. by destruct (ra !! j).
  - by destruct (ra !! j).
Qed.

Lemma entry_lookup (a : array2) (i j : nat) (row : list Q) :
  a !! i = Some row → entry a i j = nth j row 0.
Proof. intros H. unfold entry. by rewrite (nth_lookup_Some _ _ _ _ H). Qed.

Lemma cell_entry (a : array2) (r c i j : nat) :
  rect a r c → (i < r)%nat → (j < c)%nat → cell a i j = Some (entry a i j).
Proof.
  intros H Hi Hj. destruct (rect_lookup_lt a r c i H Hi) as (row & Hrow & Hlen).
  unfold cell. rewrite Hrow. simpl. rewrite (entry_lookup _ _ _ _ Hrow).
  destruct (lookup_lt_is_Some_2 row j) as [v Hv]; [lia|].
  by rewrite Hv, (nth_lookup_Some _ _ _ _ Hv).
Qed.

Lemma concat_fmap {A B : Type} (f : A → B) (l : list (list A)) :
  f <$> concat l = concat ((λ r : list A, f <$> r) <$> l).
Proof. induction l as [|r l IH]; simpl; [done|]. by rewrite fmap_app, IH. Qed.

Lemma elem_of_concat {A : Type} (l : list (list A)) (x : A) :
  x ∈ concat l ↔ ∃ r, r ∈ l ∧ x ∈ r.
Proof.
  induction l as [|r l IH]; simpl.
  - split; [by intros ?%elem_of_nil|by intros (? & ?%elem_of_nil & _)].
  - rewrite elem_of_app, IH. split.
    + intros [H|(r' & Hr' & H)]; [exists r; split; [left|done]|].
      exists r'. split; [by right|done].
    + intros (r' & [->|Hr']%elem_of_cons & H); [by left|]. right. by exists r'.
Qed.

Lemma elem_of_concat_imap {A B : Type} (f : nat → A → list B) (l : list A) (x : B) :
  x ∈ concat (imap f l) ↔ ∃ i y, l !! i = Some y ∧ x ∈ f i y.
Proof.
  revert f. induction l as [|a l IH]; intros f.
  - simpl. split; [by intros ?%elem_of_nil|by intros (?&?&?&?)].
  - rewrite imap_cons. simpl. rewrite elem_of_app, IH. split.
    + intros [H|(i & y & Hy & H)]; [by exists 0%nat, a|by exists (S i), y].
    + intros ([|i] & y & Hy & H); simpl in Hy.
      * injection Hy as ->. by left.
      * right. by exists i, y.
Qed.

Lemma zip_fmap {A B C : Type} (f : A → B) (g : A → C) (l : list A) :
  zip (f <$> l) (g <$> l) = (λ x, (f x, g x)) <$> l.
Proof.
  induction l as [|x l IH]; [done|]. rewrite !fmap_cons. simpl. by f_equal.
Qed.

(** ** Writing ones at the relative maxima *)

Lemma cell_put {A : Type} (a : list (list A)) (i' j' i j : nat) (v : A) :
  cell (alter (λ row, <[j' := v]> row) i' a) i j
  = (λ u, if decide ((i', j') = (i, j)) then v else u) <$> cell a i j.
Proof.
  unfold cell. rewrite list_lookup_alter.
  destruct (decide (i' = i)) as [->|Hi].
  - destruct (a !! i) as [row|]; simpl; [|done].
    rewrite list_lookup_insert.
    destruct (decide (j' = j)) as [->|Hj].
    + destruct (row !! j) eqn:E; simpl.
      * rewrite decide_True by (split; [done|by eapply lookup_lt_Some]).
        by rewrite decide_True.
      * rewrite decide_False; [done|]. intros [_ Hlt%lookup_lt_is_Some].
        rewrite E in Hlt. by apply is_Some_None in Hlt.
    + rewrite decide_False by (by intros [? _]).
      destruct (row !! j); simpl; [|done]. rewrite decide_False; congruence.
  - destruct (a !! i ≫= λ row, row !! j); simpl; [|done].
    rewrite decide_False; congruence.
Qed.

Lemma cell_index_put (cs : list (nat * nat)) (a : array2) (v : Q) (i j : nat) :
  cell (foldl (λ acc ij, alter (λ row, <[ij.2 := v]> row) ij.1 acc) a cs) i j
  = (λ u, if decide ((i, j) ∈ cs) then v else u) <$> cell a i j.
Proof.
  revert a. induction cs as [|[i' j'] cs IH]; intros a; simpl.
  - by destruct (cell a i j).
  - rewrite IH, cell_put.
    destruct (cell a i j); [|done]. cbn [fmap option_fmap option_map]. f_equal.
    destruct (decide ((i, j) ∈ cs)) as [Hin|Hin].
    + rewrite decide_True; [done|by right].
    + destruct (decide ((i', j') = (i, j))) as [E|E].
      * rewrite decide_True; [done|]. rewrite E. left.
      * rewrite decide_False; [done|].
        intros [?|?]%elem_of_cons; [congruence|done].
Qed.

Lemma lens_index_put (cs : list (nat * nat)) (a : array2) (v : Q) :
  lens (foldl (λ acc ij, alter (λ row, <[ij.2 := v]> row) ij.1 acc) a cs) = lens a.
Proof.
  revert a. induction cs as [|[i' j'] cs IH]; intros a; simpl; [done|].
  rewrite IH. unfold lens. apply list_eq. intros i.
  rewrite !list_lookup_fmap, list_lookup_alter.
  destruct (decide (i' = i)) as [->|]; [|done].
  destruct (a !! i); simpl; [|done]. by rewrite length_insert.
Qed.

Lemma elem_of_nonzero_row (row : list bool) (k j : nat) :
  j ∈ nonzero_row k row ↔ (k ≤ j)%nat ∧ row !! (j - k)%nat = Some true.
Proof.
  revert k. induction row as [|b row IH]; intros k; simpl.
  - split; [by intros ?%elem_of_nil|by intros [_ ?]].
  - rewrite elem_of_app, IH. split.
    + intros [Hj|[Hle Hj]].
      * destruct b; [|by apply elem_of_nil in Hj].
        apply list_elem_of_singleton in Hj as ->. split; [lia|].
        by replace (k - k)%nat with 0%nat by lia.
      * split; [lia|]. by replace (j - k)%nat with (S (j - S k)) by lia.
    + intros [Hle Hj]. destruct (decide (j = k)) as [->|Hne].
      * left. replace (k - k)%nat with 0%nat in Hj by lia. simpl in Hj.
        injection Hj as ->. left.
      * right. split; [lia|].
        by replace (j - k)%nat with (S (j - S k)) in Hj by lia.
Qed.

(** [np.nonzero] lists exactly the true cells. *)
Lemma elem_of_nonzero_cells (b : list (list bool)) (i j : nat) :
  (i, j) ∈ nonzero_cells b ↔ cell b i j = Some true.
Proof.
  unfold nonzero_cells, cell. rewrite elem_of_concat_imap. split.
  - intros (i' & row & Hrow & Hin).
    apply list_elem_of_fmap in Hin as (j' & [= -> ->] & Hj).
    apply elem_of_nonzero_row in Hj as [_ Hj].
    rewrite Hrow. simpl. by rewrite Nat.sub_0_r in Hj.
  - intros H. destruct (b !! i) as [row|] eqn:Hrow; simpl in H; [|done].
    exists i, row. split; [done|]. apply list_elem_of_fmap. exists j.
    split; [done|]. apply elem_of_nonzero_row. split; [lia|].
    by rewrite Nat.sub_0_r.
Qed.

(** Writing 1 into a zero array at the true cells of [b] gives [b] itself,
    read as numbers. *)
Lemma index_put_nonzero (data : array2) (b : list (list bool)) :
  lens b = lens data →
  index_put (zeros_like data) (nonzero b) 1 = (λ row : list bool, b2q <$> row) <$> b.
Proof.
  intros Hl. unfold index_put, nonzero. simpl. rewrite zip_fst_snd.
  apply array_ext.
  - rewrite lens_index_put. unfold zeros_like. by rewrite !lens_fmap.
  - intros i j. rewrite cell_index_put.
    assert (cell (zeros_like data) i j = (λ _, 0) <$> cell b i j) as ->.
    { unfold cell, zeros_like. rewrite list_lookup_fmap.
      pose proof (lookup_lens b data i Hl) as Hi.
      destruct (b !! i) as [rb|], (data !! i) as [rd|]; simpl in *; try done.
      injection Hi as Hi. rewrite list_lookup_fmap.
      destruct (rb !! j) eqn:E1, (rd !! j) eqn:E2; simpl; try done.
      - apply lookup_lt_Some in E1. apply lookup_ge_None in E2. lia.
      - apply lookup_lt_Some in E2. apply lookup_ge_None in E1. lia. }
    transitivity (b2q <$> cell b i j).
    + destruct (cell b i j) as [v|] eqn:E; simpl; [|done]. f_equal.
      destruct (decide ((i, j) ∈ nonzero_cells b)) as [Hin|Hin].
      * apply elem_of_nonzero_cells in Hin. rewrite E in Hin. by injection Hin as ->.
      * destruct v; [|done]. by apply elem_of_nonzero_cells in E.
    + unfold cell. rewrite list_lookup_fmap.
      destruct (b !! i); simpl; [|done]. by rewrite list_lookup_fmap.
Qed.

Lemma eq_two_add_row (r1 r2 : list bool) :
  (λ u : Q, Qeq_bool u 2) <$> zip_with Qplus (b2q <$> r1) (b2q <$> r2)
  = zip_with andb r1 r2.
Proof.
  revert r2. induction r1 as [|b1 r1 IH]; intros [|b2 r2]; simpl; try done.
  rewrite <- IH. by destruct b1, b2.
Qed.

(** The sum of two arrays of zeros and ones is 2 where both are 1. *)
Lemma eq_scalar_add (b1 b2 : list (list bool)) :
  eq_scalar (add_arrays ((λ row : list bool, b2q <$> row) <$> b1)
                        ((λ row : list bool, b2q <$> row) <$> b2)) 2
  = and_arrays b1 b2.
Proof.
  unfold eq_scalar, add_arrays, and_arrays.
  revert b2. induction b1 as [|r1 b1 IH]; intros [|r2 b2]; simpl; try done.
  by rewrite <- IH, <- eq_two_add_row.
Qed.

(** ** Relative maxima *)

Lemma clip_lt (n : nat) (k : Z) : (0 < n)%nat → (clip n k < n)%nat.
Proof. unfold clip. lia. Qed.

Lemma lens_take_axis1 (data : array2) (shift : Z) :
  lens (take_axis1 data shift) = lens data.
Proof.
  unfold lens, take_axis1. rewrite <- list_fmap_compose.
  apply list_fmap_ext. intros _ row _. simpl.
  by rewrite length_fmap, length_seq.
Qed.

Lemma take_axis0_lookup (data : array2) (shift : Z) (i : nat) :
  (i < length data)%nat →
  take_axis0 data shift !! i
  = Some (nth (clip (length data) (Z.of_nat i + shift)) data []).
Proof.
  intros Hi. unfold take_axis0.
  by rewrite list_lookup_fmap, lookup_seq_lt.
Qed.

Lemma lens_take_axis0 (data : array2) (r c : nat) (shift : Z) :
  rect data r c → lens (take_axis0 data shift) = lens data.
Proof.
  intros H. pose proof (rect_length _ _ _ H) as Hr.
  unfold rect in H. rewrite H. unfold lens.
  apply list_eq. intros i. rewrite list_lookup_fmap.
  destruct (decide (i < r)%nat) as [Hi|Hi].
  - rewrite take_axis0_lookup by lia. simpl.
    rewrite lookup_replicate_2 by done. f_equal.
    destruct (rect_lookup_lt data r c (clip (length data) (Z.of_nat i + shift)))
      as (row & Hrow & Hlen); [done|rewrite <- Hr; apply clip_lt; lia|].
    by rewrite (nth_lookup_Some _ _ _ _ Hrow).
  - rewrite (proj1 (lookup_replicate_None _ _ _)) by lia.
    unfold take_axis0. rewrite list_lookup_fmap, lookup_seq_ge; [done|lia].
Qed.

Lemma lens_boolrelextrema1 (data : array2) :
  lens (boolrelextrema data 1) = lens data.
Proof.
  unfold boolrelextrema, and_arrays, greater.
  rewrite lens_zip_with; rewrite !lens_zip_with; by rewrite ?lens_take_axis1.
Qed.

Lemma lens_boolrelextrema0 (data : array2) (r c : nat) :
  rect data r c → lens (boolrelextrema data 0) = lens data.
Proof.
  intros H. unfold boolrelextrema, and_arrays, greater.
  rewrite lens_zip_with; rewrite !lens_zip_with;
    by rewrite ?(lens_take_axis0 data r c).
Qed.

Lemma lens_maxima_out (a : array2) : lens (maxima_out a) = lens a.
Proof.
  unfold maxima_out, add_arrays, index_put, zeros_like.
  rewrite lens_zip_with; by rewrite !lens_index_put, ?lens_fmap.
Qed.

Lemma rect_mask (data : array2) (r c : nat) :
  rect data r c → rect (eq_scalar (maxima_out data) 2) r c.
Proof. unfold rect, eq_scalar. by rewrite lens_fmap, lens_maxima_out. Qed.

(** Lines 87 to 93 and the comparison with 2 compute the conjunction of
    the two relative-maximum tests. *)
Lemma maxima_mask (data : array2) (r c : nat) :
  rect data r c →
  eq_scalar (maxima_out data) 2
  = and_arrays (boolrelextrema data 1) (boolrelextrema data 0).
Proof.
  intros H. unfold maxima_out, argrelmax.
  rewrite !index_put_nonzero.
  - apply eq_scalar_add.
  - by apply (lens_boolrelextrema0 data r c).
  - apply lens_boolrelextrema1.
Qed.

Lemma cell_take_axis1 (data : array2) (r c i j : nat) (shift : Z) :
  rect data r c → (i < r)%nat → (j < c)%nat →
  cell (take_axis1 data shift) i j
  = Some (entry data i (clip c (Z.of_nat j + shift))).
Proof.
  intros H Hi Hj. destruct (rect_lookup_lt data r c i H Hi) as (row & Hrow & Hlen).
  unfold cell, take_axis1. rewrite list_lookup_fmap, Hrow. simpl.
  rewrite list_lookup_fmap, lookup_seq_lt by lia. simpl.
  by rewrite (entry_lookup _ _ _ _ Hrow), Hlen.
Qed.

Lemma cell_take_axis0 (data : array2) (r c i j : nat) (shift : Z) :
  rect data r c → (i < r)%nat → (j < c)%nat →
  cell (take_axis0 data shift) i j
  = Some (entry data (clip r (Z.of_nat i + shift)) j).
Proof.
  intros H Hi Hj. pose proof (rect_length _ _ _ H) as Hr.
  unfold cell. rewrite take_axis0_lookup by lia. simpl. rewrite Hr.
  destruct (rect_lookup_lt data r c (clip r (Z.of_nat i + shift)))
    as (row & Hrow & Hlen); [done|apply clip_lt; lia|].
  rewrite (nth_lookup_Some _ _ _ _ Hrow), (entry_lookup _ _ _ _ Hrow).
  destruct (lookup_lt_is_Some_2 row j) as [v Hv]; [lia|].
  by rewrite Hv, (nth_lookup_Some _ _ _ _ Hv).
Qed.

Lemma cell_boolrelextrema1 (data : array2) (r c i j : nat) :
  rect data r c → (i < r)%nat → (j < c)%nat →
  cell (boolrelextrema data 1) i j
  = Some (Qgtb (entry data i j) (entry data i (clip c (Z.of_nat j + 1)))
          && Qgtb (entry data i j) (entry data i (clip c (Z.of_nat j + -1)))).
Proof.
  intros H Hi Hj. unfold boolrelextrema, and_arrays, greater.
  rewrite !cell_zip_with, !(cell_take_axis1 data r c), (cell_entry data r c);
    done.
Qed.

Lemma cell_boolrelextrema0 (data : array2) (r c i j : nat) :
  rect data r c → (i < r)%nat → (j < c)%nat →
  cell (boolrelextrema data 0) i j
  = Some (Qgtb (entry data i j) (entry data (clip r (Z.of_nat i + 1)) j)
          && Qgtb (entry data i j) (entry data (clip r (Z.of_nat i + -1)) j)).
Proof.
  intros H Hi Hj. unfold boolrelextrema, and_arrays, greater.
  rewrite !cell_zip_with, !(cell_take_axis0 data r c), (cell_entry data r c);
    done.
Qed.

(** With clipped indices the comparison with the next entry succeeds only
    where there is a next entry, and a smaller one. *)
Lemma Qgtb_clip_succ (n k : nat) (f : nat → Q) :
  (k < n)%nat →
  Qgtb (f k) (f (clip n (Z.of_nat k + 1))) = true ↔ (S k < n)%nat ∧ f (S k) < f k.
Proof.
  intros Hk. destruct (decide (S k < n)%nat) as [Hlt|Hge].
  - replace (clip n (Z.of_nat k + 1)) with (S k) by (unfold clip; lia).
    rewrite Qgtb_true. tauto.
  - replace (clip n (Z.of_nat k + 1)) with k by (unfold clip; lia).
    rewrite Qgtb_irrefl. intuition (done || lia).
Qed.

Lemma Qgtb_clip_pred (n k : nat) (f : nat → Q) :
  (k < n)%nat →
  Qgtb (f k) (f (clip n (Z.of_nat k + -1))) = true
  ↔ (0 < k)%nat ∧ f (k - 1)%nat < f k.
Proof.
  intros Hk. destruct (decide (0 < k)%nat) as [Hlt|Hge].
  - replace (clip n (Z.of_nat k + -1)) with (k - 1)%nat by (unfold clip; lia).
    rewrite Qgtb_true. tauto.
  - replace (clip n (Z.of_nat k + -1)) with k by (unfold clip; lia).
    rewrite Qgtb_irrefl. intuition (done || lia).
Qed.

(** The cells that the code selects are the strict local maxima along
    both axes. *)
Lemma candidate_cells_strict_max (data : array2) (r c i j : nat) :
  rect data r c →
  (i, j) ∈ candidate_cells data ↔ strict_local_max data c i j.
Proof.
  intros H. unfold candidate_cells.
  rewrite elem_of_nonzero_cells.
  pose proof (rect_length _ _ _ H) as Hr.
  pose proof (rect_mask data r c H) as Hmask.
  rewrite (maxima_mask data r c H) in Hmask |- *.
  unfold strict_local_max. rewrite Hr. split.
  - intros Hc. destruct (cell_lt _ _ _ _ _ _ Hmask Hc) as [Hi Hj].
    unfold and_arrays in Hc. rewrite cell_zip_with in Hc.
    rewrite (cell_boolrelextrema1 data r c), (cell_boolrelextrema0 data r c)
      in Hc by done.
    simpl in Hc. injection Hc as Hc.
    apply andb_true_iff in Hc as [[H1 H2]%andb_true_iff [H3 H4]%andb_true_iff].
    apply (Qgtb_clip_succ c j (entry data i)) in H1; [|done].
    apply (Qgtb_clip_pred c j (entry data i)) in H2; [|done].
    apply (Qgtb_clip_succ r i (λ k, entry data k j)) in H3; [|done].
    apply (Qgtb_clip_pred r i (λ k, entry data k j)) in H4; [|done].
    tauto.
  - intros ((Hi0 & Hi1 & Hj0 & Hj1) & H1 & H2 & H3 & H4).
    unfold and_arrays. rewrite cell_zip_with.
    rewrite (cell_boolrelextrema1 data r c), (cell_boolrelextrema0 data r c)
      by (done || lia).
    simpl. f_equal. rewrite !andb_true_iff. split_and!.
    + apply (Qgtb_clip_succ c j (entry data i)); [lia|done].
    + apply (Qgtb_clip_pred c j (entry data i)); [lia|]. split; [lia|done].
    + apply (Qgtb_clip_succ r i (λ k, entry data k j)); [lia|done].
    + apply (Qgtb_clip_pred r i (λ k, entry data k j)); [lia|]. split; [lia|done].
Qed.

Lemma candidate_cells_lt (data : array2) (r c i j : nat) :
  rect data r c → (i, j) ∈ candidate_cells data → (i < r)%nat ∧ (j < c)%nat.
Proof.
  intros H Hin. apply elem_of_nonzero_cells in Hin.
  by apply (cell_lt _ r c i j true (rect_mask data r c H)).
Qed.

(** ** Selection by a boolean mask *)

Lemma select_row_nonzero (r : list Q) (m : list bool) (k : nat) :
  length r = length m →
  select_row r m = (λ j, nth (j - k) r 0) <$> nonzero_row k m.
Proof.
  revert m k. induction r as [|v r IH]; intros [|b m] k Hl; simpl in *; try done.
  rewrite fmap_app. f_equal.
  - destruct b; [|done]. simpl. by rewrite Nat.sub_diag.
  - rewrite (IH m (S k)) by lia.
    apply list_fmap_ext. intros _ j Hj%list_elem_of_lookup_2.
    apply elem_of_nonzero_row in Hj as [Hj _].
    by replace (j - k)%nat with (S (j - S k)) by lia.
Qed.

Lemma select_row_subseteq (r : list Q) (m : list bool) (v : Q) :
  v ∈ select_row r m → v ∈ r.
Proof.
  revert m. induction r as [|u r IH]; intros [|b m]; simpl;
    try by intros ?%elem_of_nil.
  intros [H|H]%elem_of_app.
  - destruct b; [|by apply elem_of_nil in H].
    apply list_elem_of_singleton in H as ->. left.
  - right. by eapply IH.
Qed.

Lemma select_nonzero (a : array2) (mask : list (list bool)) :
  lens a = lens mask →
  concat (zip_with select_row a mask)
  = (λ ij, entry a ij.1 ij.2) <$> nonzero_cells mask.
Proof.
  intros Hl. unfold nonzero_cells. rewrite concat_fmap, fmap_imap. f_equal.
  apply list_eq. intros i. rewrite lookup_zip_with, list_lookup_imap.
  pose proof (lookup_lens a mask i Hl) as Hi.
  destruct (a !! i) as [ra|] eqn:Ha, (mask !! i) as [rm|]; simpl in *; try done.
  injection Hi as Hi. f_equal.
  rewrite (select_row_nonzero ra rm 0 Hi), <- list_fmap_compose.
  apply list_fmap_ext. intros _ j _. simpl.
  by rewrite Nat.sub_0_r, (entry_lookup _ _ _ _ Ha).
Qed.

(** [a[mask]] holds the entries of [a] at the true cells of the mask. *)
Lemma bool_index_rect (a : array2) (mask : list (list bool)) (r c : nat) :
  rect a r c → rect mask r c →
  bool_index a mask = Return ((λ ij, entry a ij.1 ij.2) <$> nonzero_cells mask).
Proof.
  intros Ha Hm. unfold bool_index, shape.
  assert (lens a = lens mask) as Hl by (unfold rect in *; congruence).
  rewrite decide_True by (by apply shape_lens).
  by rewrite select_nonzero.
Qed.

Lemma bool_index_subseteq (a : array2) (mask : list (list bool)) (l : list Q) (v : Q) :
  bool_index a mask = Return l → v ∈ l → v ∈ concat a.
Proof.
  unfold bool_index. case_decide; [|done]. intros [= <-] Hv.
  apply elem_of_concat in Hv as (r & Hr & Hv).
  apply elem_of_lookup_zip_with in Hr as (i & ra & rm & -> & Hra & Hrm).
  apply select_row_subseteq in Hv. apply elem_of_concat.
  exists ra. split; [|done]. by eapply list_elem_of_lookup_2.
Qed.

(** ** The grid *)

Lemma rect_meshgrid_1 (x y : list Q) : rect (meshgrid x y).1 (length y) (length x).
Proof. by apply rect_fmap. Qed.

Lemma rect_meshgrid_2 (x y : list Q) : rect (meshgrid x y).2 (length y) (length x).
Proof. apply rect_fmap. intros v. by rewrite length_fmap. Qed.

Lemma entry_meshgrid_1 (x y : list Q) (i j : nat) :
  (i < length y)%nat → entry (meshgrid x y).1 i j = nth j x 0.
Proof.
  intros Hi. destruct (lookup_lt_is_Some_2 y i Hi) as [v Hv].
  apply entry_lookup. unfold meshgrid. simpl. by rewrite list_lookup_fmap, Hv.
Qed.

Lemma entry_meshgrid_2 (x y : list Q) (i j : nat) :
  (i < length y)%nat → (j < length x)%nat →
  entry (meshgrid x y).2 i j = nth i y 0.
Proof.
  intros Hi Hj. destruct (lookup_lt_is_Some_2 y i Hi) as [v Hv].
  destruct (lookup_lt_is_Some_2 x j Hj) as [u Hu].
  unfold meshgrid. simpl.
  erewrite entry_lookup by (by rewrite list_lookup_fmap, Hv).
  rewrite (nth_lookup_Some _ _ _ _ Hv).
  apply nth_lookup_Some. by rewrite list_lookup_fmap, Hu.
Qed.

Lemma elem_of_meshgrid_1 (x y : list Q) (v : Q) :
  v ∈ concat (meshgrid x y).1 → v ∈ x.
Proof.
  intros (r & Hr & Hv)%elem_of_concat. unfold meshgrid in Hr. simpl in Hr.
  by apply list_elem_of_fmap in Hr as (_ & -> & _).
Qed.

Lemma elem_of_meshgrid_2 (x y : list Q) (v : Q) :
  v ∈ concat (meshgrid x y).2 → v ∈ y.
Proof.
  intros (r & Hr & Hv)%elem_of_concat. unfold meshgrid in Hr. simpl in Hr.
  apply list_elem_of_fmap in Hr as (yi & -> & Hyi).
  by apply list_elem_of_fmap in Hv as (_ & -> & _).
Qed.

Lemma linspace_Return (a b : Q) (r : Z) :
  (0 ≤ r)%Z → ∃ x, linspace a b r = Return x.
Proof.
  intros Hr. unfold linspace. destruct (r <? 0)%Z eqn:E; [lia|]. by eexists.
Qed.

Lemma linspace_length (a b : Q) (r : Z) (x : list Q) :
  linspace a b r = Return x → (0 ≤ r)%Z ∧ length x = Z.to_nat r.
Proof.
  unfold linspace. destruct (r <? 0)%Z eqn:E; [done|]. intros [= <-].
  split; [lia|]. destruct (Z.to_nat r) as [|[|k]]; simpl; try done.
  rewrite length_app, length_fmap, length_seq. simpl. lia.
Qed.

(** The samples of [linspace] lie between its end points. *)
Lemma linspace_bounds (a b : Q) (r : Z) (x : list Q) (v : Q) :
  a <= b → linspace a b r = Return x → v ∈ x → a <= v ∧ v <= b.
Proof.
  intros Hab. unfold linspace. destruct (r <? 0)%Z; [done|].
  intros Hx%(f_equal unwrap). cbv beta iota delta [unwrap] in Hx. subst x.
  destruct (Z.to_nat r) as [|[|k]].
  - by intros ?%elem_of_nil.
  - intros ->%list_elem_of_singleton. split; [apply Qle_refl|done].
  - intros [H| ->%list_elem_of_singleton]%elem_of_app; [|split; [done|apply Qle_refl]].
    apply list_elem_of_fmap in H as (i & -> & Hi).
    apply elem_of_seq in Hi.
    set (n := inject_Z (Z.of_nat (S k))).
    set (t := inject_Z (Z.of_nat i)).
    assert (0 < n) as Hn.
    { unfold n. change 0 with (inject_Z 0). rewrite <- Zlt_Qlt. lia. }
    assert (0 <= t ∧ t <= n) as [Ht0 Htn].
    { unfold t, n. change 0 with (inject_Z 0). rewrite <- !Zle_Qle. lia. }
    assert ((b - a) / n * n == b - a) as E by (field; lra).
    assert (0 <= (b - a) / n) as Hstep.
    { apply Qle_shift_div_l; [done|lra]. }
    split.
    + assert (0 <= t * ((b - a) / n)); [|lra].
      by apply Qmult_le_0_compat.
    + assert (t * ((b - a) / n) <= n * ((b - a) / n)) as Hle
        by (by apply Qmult_le_compat_r).
      lra.
Qed.

(** ** The truth value of the cached surface *)

Lemma single_rect (a : array2) (n : nat) (v : Q) :
  ravel a = [v] → shape a = (n, n) → rect a n n.
Proof.
  unfold ravel, shape. intros Hv Hs. injection Hs as Hlen Hrow.
  destruct a as [|r0 a]; simpl in *; [discriminate|].
  assert (length (r0 ++ concat a) = 1%nat) as Hl by (by rewrite Hv).
  rewrite length_app in Hl.
  destruct a as [|r1 a]; [|simpl in *; lia].
  simpl in *. subst n. unfold rect, lens. simpl. by rewrite Hrow.
Qed.

(** A surface of two rows and columns or more has no truth value. *)
Lemma truth_rect (a : array2) (n : nat) :
  rect a n n → (2 ≤ n)%nat → truth a = Raise ValueError.
Proof.
  intros H Hn. pose proof (length_concat_rect a n n H) as Hl.
  unfold truth, ravel. destruct (concat a) as [|u [|w l]]; simpl in Hl; [nia..|done].
Qed.

Lemma truth_Return (a : array2) (b : bool) :
  truth a = Return b → ravel a = [] ∨ ∃ v, ravel a = [v].
Proof.
  unfold truth. destruct (ravel a) as [|u [|w l]]; [by left|right; by eexists|done].
Qed.

(** ** Runs of [estimate_stops] *)

Section Run.

Variable gaussian_kde : dataset → option (list Q) → Q → py (Q → Q → Q).
Variable osrm_nearest : Q → Q → option (list number).

(** What a call that returns has done: the two axes were sampled, the
    state holds a surface with one entry per grid cell (fitted by this call,
    or the one-by-one surface that was there), and the result is assembled
    from the grid coordinates at the cells where [out == 2]. *)
Lemma estimate_stops_Return weighted snap resolution bw self self' l :
  estimate_stops gaussian_kde osrm_nearest weighted snap resolution bw self
    = (self', Return l) →
  ∃ x y data sel_x sel_y,
    linspace (nth 0 (__boundaries self) 0) (nth 1 (__boundaries self) 0)
             resolution = Return x ∧
    linspace (nth 2 (__boundaries self) 0) (nth 3 (__boundaries self) 0)
             resolution = Return y ∧
    self' = with_stop_prob data self ∧
    rect data (length y) (length x) ∧
    bool_index (meshgrid x y).1 (eq_scalar (maxima_out data) 2) = Return sel_x ∧
    bool_index (meshgrid x y).2 (eq_scalar (maxima_out data) 2) = Return sel_y ∧
    (if snap
     then T <$> apply_along_axis (nearest_street osrm_nearest)
                  (transpose (shape [sel_x; sel_y]).2 [sel_x; sel_y])
     else Return (A2 [sel_x; sel_y])) ≫= zip_point_list = Return l.
Proof.
  unfold estimate_stops.
  cbv beta iota delta [m_bind lift get m_ret set__stop_prob].
  destruct (linspace (nth 0 _ 0) _ _) as [x|] eqn:Hx; [|done].
  destruct (linspace (nth 2 _ 0) _ _) as [y|] eqn:Hy; [|done].
  destruct (linspace_length _ _ _ _ Hx) as [_ Hlx].
  destruct (linspace_length _ _ _ _ Hy) as [_ Hly].
  assert (length y = length x) as Hyx by congruence.
  destruct (meshgrid x y) as [xx yy] eqn:Hmesh.
  assert (rect xx (length y) (length x)) as Hxx.
  { replace xx with (meshgrid x y).1 by (by rewrite Hmesh). apply rect_meshgrid_1. }
  destruct (py_not (_stop_prob self)) as [[|]|] eqn:Hnot; [| |done].
  - (* the surface is fitted *)
    destruct (if weighted then _ else _) as [pdf|]; [|done].
    cbv beta iota delta [_stop_prob].
    set (data := reshape _ _ _).
    assert (rect data (length y) (length x)) as Hdata.
    { unfold data. rewrite Hyx in Hxx |- *.
      assert (rect yy (length x) (length x)) as Hyy.
      { replace yy with (meshgrid x y).2 by (by rewrite Hmesh).
        rewrite <- Hyx at 1. apply rect_meshgrid_2. }
      unfold shape. rewrite (shape_rect xx (length x) Hxx). simpl.
      apply rect_reshape. rewrite length_zip_with. unfold ravel.
      rewrite !(length_concat_rect _ _ _ Hxx), (length_concat_rect _ _ _ Hyy).
      lia. }
    destruct (bool_index xx _) as [sel_x|] eqn:Hsx; [|done].
    destruct (bool_index yy _) as [sel_y|] eqn:Hsy; [|done].
    destruct (if snap then _ else _) as [stop_points|] eqn:Hsp; [|done].
    intros [= <- Hl]. exists x, y, data, sel_x, sel_y.
    rewrite Hmesh, Hsp. by split_and!.
  - (* the surface is there *)
    destruct (_stop_prob self) as [a|] eqn:Hcached; [|done].
    unfold py_not in Hnot.
    destruct (truth a) as [b|] eqn:Ht; [|done].
    destruct (bool_index xx _) as [sel_x|] eqn:Hsx; [|done].
    destruct (bool_index yy _) as [sel_y|] eqn:Hsy; [|done].
    assert (rect a (length y) (length x)) as Ha.
    { assert (shape a = (length x, length x)) as Hshape.
      { unfold bool_index in Hsx. case_decide as Hs; [|done].
        rewrite <- (shape_lens a (eq_scalar (maxima_out a) 2)) in Hs
          by (unfold eq_scalar; by rewrite lens_fmap, lens_maxima_out).
        unfold shape in Hs at 1. rewrite Hyx in Hxx.
        by rewrite (shape_rect xx (length x) Hxx) in Hs. }
      rewrite Hyx.
      destruct (truth_Return a b Ht) as [He|[v Hv]].
      - unfold truth in Ht. rewrite He in Ht. by simplify_eq/=.
      - by apply (single_rect a _ v). }
    destruct (if snap then _ else _) as [stop_points|] eqn:Hsp; [|done].
    intros [= <- Hl]. exists x, y, a, sel_x, sel_y.
    rewrite Hmesh, Hsp. split_and!; try done.
    unfold with_stop_prob. rewrite <- Hcached. by destruct self.
Qed.

(** Without road snapping the result lists, cell by cell, the grid's [y]
    and [x] at the candidate cells. *)
Lemma estimate_stops_candidates weighted resolution bw self self' l :
  estimate_stops gaussian_kde osrm_nearest weighted false resolution bw self
    = (self', Return l) →
  ∃ x y data,
    linspace (nth 0 (__boundaries self) 0) (nth 1 (__boundaries self) 0)
             resolution = Return x ∧
    linspace (nth 2 (__boundaries self) 0) (nth 3 (__boundaries self) 0)
             resolution = Return y ∧
    self' = with_stop_prob data self ∧
    rect data (length y) (length x) ∧
    bool_index (meshgrid x y).1 (eq_scalar (maxima_out data) 2)
      = Return ((λ ij, entry (meshgrid x y).1 ij.1 ij.2) <$> candidate_cells data) ∧
    bool_index (meshgrid x y).2 (eq_scalar (maxima_out data) 2)
      = Return ((λ ij, entry (meshgrid x y).2 ij.1 ij.2) <$> candidate_cells data) ∧
    l = (λ ij, (entry (meshgrid x y).2 ij.1 ij.2, entry (meshgrid x y).1 ij.1 ij.2))
          <$> candidate_cells data.
Proof.
  intros (x & y & data & sel_x & sel_y & Hx & Hy & -> & Hdata & Hsx & Hsy & Hl)
    %estimate_stops_Return.
  exists x, y, data.
  pose proof (rect_mask data _ _ Hdata) as Hmask.
  rewrite (bool_index_rect _ _ _ _ (rect_meshgrid_1 x y) Hmask) in Hsx |- *.
  rewrite (bool_index_rect _ _ _ _ (rect_meshgrid_2 x y) Hmask) in Hsy |- *.
  injection Hsx as <-. injection Hsy as <-.
  split_and!; try done.
  cbn in Hl. injection Hl as <-. apply zip_fmap.
Qed.

(** On a state without a surface, a call without road snapping returns
    whenever the fit succeeds. *)
Lemma estimate_stops_returns (weighted : bool) resolution bw self pdf :
  _stop_prob self = None → (0 ≤ resolution)%Z →
  (if weighted
   then gaussian_kde (DArray (__p_coordinates self)) (weights self) bw
   else gaussian_kde (DGeo (points self)) None bw) = Return pdf →
  ∃ self' l,
    estimate_stops gaussian_kde osrm_nearest weighted false resolution bw self
    = (self', Return l).
Proof.
  intros Hnone Hr Hfit. unfold estimate_stops.
  cbv beta iota delta [m_bind lift get m_ret set__stop_prob].
  destruct (linspace_Return (nth 0 (__boundaries self) 0)
              (nth 1 (__boundaries self) 0) resolution Hr) as [x Hx].
  destruct (linspace_Return (nth 2 (__boundaries self) 0)
              (nth 3 (__boundaries self) 0) resolution Hr) as [y Hy].
  rewrite Hx, Hy.
  destruct (linspace_length _ _ _ _ Hx) as [_ Hlx].
  destruct (linspace_length _ _ _ _ Hy) as [_ Hly].
  assert (length y = length x) as Hyx by congruence.
  pose proof (rect_meshgrid_1 x y) as Hxx.
  pose proof (rect_meshgrid_2 x y) as Hyy.
  destruct (meshgrid x y) as [xx yy]. simpl in Hxx, Hyy.
  rewrite Hnone, Hfit. cbn [py_not _stop_prob].
  set (data := reshape _ _ _).
  assert (rect data (length y) (length x)) as Hdata.
  { unfold data, shape. rewrite Hyx in Hxx, Hyy |- *.
    rewrite (shape_rect xx (length x) Hxx). simpl.
    apply rect_reshape. rewrite length_zip_with. unfold ravel.
    rewrite !(length_concat_rect _ _ _ Hxx), (length_concat_rect _ _ _ Hyy).
    lia. }
  pose proof (rect_mask data _ _ Hdata) as Hmask.
  rewrite (bool_index_rect _ _ _ _ Hxx Hmask), (bool_index_rect _ _ _ _ Hyy Hmask).
  by eexists _, _.
Qed.

(** A call that returned on a grid of two by two or more leaves a surface
    whose truth value the next call cannot take. *)
Lemma second_call_raises weighted snap resolution bw self self' l :
  (2 ≤ resolution)%Z →
  estimate_stops gaussian_kde osrm_nearest weighted snap resolution bw self
    = (self', Return l) →
  estimate_stops gaussian_kde osrm_nearest weighted snap resolution bw self'
    = (self', Raise ValueError).
Proof.
  intros Hr (x & y & data & sel_x & sel_y & Hx & Hy & -> & Hdata & _)
    %estimate_stops_Return.
  destruct (linspace_length _ _ _ _ Hx) as [_ Hlx].
  destruct (linspace_length _ _ _ _ Hy) as [_ Hly].
  unfold estimate_stops.
  cbv beta iota delta [m_bind lift get m_ret set__stop_prob].
  change (__boundaries (with_stop_prob data self)) with (__boundaries self).
  change (_stop_prob (with_stop_prob data self)) with (Some data).
  rewrite Hx, Hy. destruct (meshgrid x y) as [xx yy].
  unfold py_not. rewrite (truth_rect data (length x)); [done| |lia].
  by rewrite Hly, <- Hlx in Hdata.
Qed.

(** An exception of the density fit leaves [estimate_stops] as it is. *)
Lemma fit_error_surfaces (weighted snap : bool) resolution bw self e :
  _stop_prob self = None → (0 ≤ resolution)%Z →
  (if weighted
   then gaussian_kde (DArray (__p_coordinates self)) (weights self) bw
   else gaussian_kde (DGeo (points self)) None bw) = Raise e →
  estimate_stops gaussian_kde osrm_nearest weighted snap resolution bw self
    = (self, Raise e).
Proof.
  intros Hnone Hr Hfit. unfold estimate_stops.
  cbv beta iota delta [m_bind lift get m_ret set__stop_prob].
  destruct (linspace_Return (nth 0 (__boundaries self) 0)
              (nth 1 (__boundaries self) 0) resolution Hr) as [x ->].
  destruct (linspace_Return (nth 2 (__boundaries self) 0)
              (nth 3 (__boundaries self) 0) resolution Hr) as [y ->].
  destruct (meshgrid x y) as [xx yy].
  by rewrite Hnone, Hfit.
Qed.

(** With a routing service that answers no request, no call with road
    snapping returns. *)
Lemma snap_without_service_raises weighted resolution bw self :
  (∀ a b, osrm_nearest a b = None) →
  raises (estimate_stops gaussian_kde osrm_nearest weighted true resolution
            bw self).2.
Proof.
  intros Hoff.
  destruct (estimate_stops _ _ _ _ _ _ _) as [self' [l|e]] eqn:E; [|by eexists].
  apply estimate_stops_Return in E
    as (x & y & data & sel_x & sel_y & _ & _ & _ & _ & _ & _ & Hl).
  exfalso. unfold apply_along_axis in Hl.
  destruct (transpose _ _) as [|r0 rest]; [done|].
  unfold nearest_street at 1 in Hl. rewrite Hoff in Hl.
  destruct (mapM _ rest) as [vs|]; [|done].
  cbn in Hl. by destruct vs.
Qed.

(** C2: the cells that [estimate_stops] emits as stop points are exactly
    the cells of the density surface that are strict local maxima along
    axis 0 and along axis 1: a call without road snapping that returns [l]
    has left a surface [data] with one entry per grid cell, [l] lists the
    grid coordinates [(y_i, x_j)] of the candidate cells [(i, j)] in
    row-major order, a cell is a candidate if and only if its entry is
    strictly greater than both neighbours in its column and both
    neighbours in its row, no candidate lies on an edge of the grid, and no
    candidate has a neighbour of equal value. *)
Theorem candidates_are_strict_maxima weighted resolution bw self self' l :
  estimate_stops gaussian_kde osrm_nearest weighted false resolution bw self
    = (self', Return l) →
  ∃ x y data,
    linspace (nth 0 (__boundaries self) 0) (nth 1 (__boundaries self) 0)
             resolution = Return x ∧
    linspace (nth 2 (__boundaries self) 0) (nth 3 (__boundaries self) 0)
             resolution = Return y ∧
    _stop_prob self' = Some data ∧
    rect data (length y) (length x) ∧
    l = (λ ij, (nth ij.1 y 0, nth ij.2 x 0)) <$> candidate_cells data ∧
    (∀ i j, (i, j) ∈ candidate_cells data
            ↔ strict_local_max data (length x) i j) ∧
    (∀ i j, (i, j) ∈ candidate_cells data →
            (0 < i ∧ S i < length y ∧ 0 < j ∧ S j < length x)%nat) ∧
    (∀ i j, (i, j) ∈ candidate_cells data →
            ¬ entry data (i - 1) j == entry data i j ∧
            ¬ entry data (S i) j == entry data i j ∧
            ¬ entry data i (j - 1) == entry data i j ∧
            ¬ entry data i (S j) == entry data i j).
Proof.
  intros (x & y & data & Hx & Hy & -> & Hdata & _ & _ & ->)
    %estimate_stops_candidates.
  exists x, y, data.
  assert (∀ i j, (i, j) ∈ candidate_cells data
                 ↔ strict_local_max data (length x) i j) as Hiff
    by (intros i j; by apply (candidate_cells_strict_max data (length y))).
  split_and!; try done.
  - apply list_fmap_ext. intros _ [i j] Hin%list_elem_of_lookup_2.
    destruct (candidate_cells_lt _ _ _ _ _ Hdata Hin).
    cbv beta. by rewrite entry_meshgrid_1, entry_meshgrid_2.
  - intros i j Hin%Hiff. unfold strict_local_max in Hin.
    rewrite (rect_length _ _ _ Hdata) in Hin. tauto.
  - intros i j (_ & H1 & H2 & H3 & H4)%Hiff.
    split_and!; intros E; rewrite E in *; by eapply Qlt_irrefl.
Qed.

(** C5: [estimate_stops] returns every candidate cell's coordinates with
    the axes swapped: internally the selected [x] coordinates [xx[mask]]
    form row 0 and the selected [y] coordinates [yy[mask]] row 1 of
    [stop_points]; the list returned holds, for each candidate cell in
    order, the pair [(y, x)] of the cell's entries in the meshgrid arrays
    [yy] and [xx]. *)
Theorem stops_are_y_x_pairs weighted resolution bw self self' l :
  estimate_stops gaussian_kde osrm_nearest weighted false resolution bw self
    = (self', Return l) →
  ∃ x y data xx yy,
    linspace (nth 0 (__boundaries self) 0) (nth 1 (__boundaries self) 0)
             resolution = Return x ∧
    linspace (nth 2 (__boundaries self) 0) (nth 3 (__boundaries self) 0)
             resolution = Return y ∧
    meshgrid x y = (xx, yy) ∧
    _stop_prob self' = Some data ∧
    bool_index xx (eq_scalar (maxima_out data) 2)
      = Return ((λ ij, entry xx ij.1 ij.2) <$> candidate_cells data) ∧
    bool_index yy (eq_scalar (maxima_out data) 2)
      = Return ((λ ij, entry yy ij.1 ij.2) <$> candidate_cells data) ∧
    l = (λ ij, (entry yy ij.1 ij.2, entry xx ij.1 ij.2)) <$> candidate_cells data ∧
    length l = length (candidate_cells data).
Proof.
  intros (x & y & data & Hx & Hy & -> & Hdata & Hsx & Hsy & ->)
    %estimate_stops_candidates.
  exists x, y, data, (meshgrid x y).1, (meshgrid x y).2.
  split_and!; try done. by rewrite length_fmap.
Qed.

(** C9: every coordinate pair [(y, x)] that [estimate_stops] returns
    without road snapping lies within the boundaries of the point set,
    ends included: [xmin <= x <= xmax] and [ymin <= y <= ymax].  This holds
    for every state whose boundaries are those of its (non-empty) point
    set, whatever the weights and the fit; the call leaves the boundaries
    as they are. *)
Theorem stops_within_boundaries weighted resolution bw self self' l :
  points_assigned self →
  estimate_stops gaussian_kde osrm_nearest weighted false resolution bw self
    = (self', Return l) →
  Forall (within (boundaries self)) l ∧ boundaries self' = boundaries self.
Proof.
  intros [Hxb Hyb]%points_assigned_ordered
    (x & y & data & sel_x & sel_y & Hx & Hy & -> & _ & Hsx & Hsy & Hl)
    %estimate_stops_Return.
  split; [|done]. cbn in Hl. injection Hl as <-.
  apply Forall_forall. intros [a b] Hin. unfold within, boundaries. simpl.
  pose proof (elem_of_zip_l _ _ _ _ Hin) as Ha.
  pose proof (elem_of_zip_r _ _ _ _ Hin) as Hb.
  apply (bool_index_subseteq _ _ _ _ Hsy), elem_of_meshgrid_2 in Ha.
  apply (bool_index_subseteq _ _ _ _ Hsx), elem_of_meshgrid_1 in Hb.
  destruct (linspace_bounds _ _ _ _ _ Hxb Hx Hb).
  destruct (linspace_bounds _ _ _ _ _ Hyb Hy Ha). done.
Qed.

End Run.

(** The modelled fit itself treats omitted weights as weights 1. *)
Lemma sum_replicate_pos (n : nat) : 0 < weightedkde.sum (replicate (S n) 1).
Proof.
  induction n as [|n IH]; [done|].
  change (0 < 1 + weightedkde.sum (replicate (S n) 1)). lra.
Qed.

Lemma gaussian_kde_unit_weights kernel xs ys bw :
  (2 ≤ length xs)%nat →
  weightedkde.gaussian_kde kernel (DArray [xs; ys])
    (Some (replicate (length xs) 1)) bw
  = weightedkde.gaussian_kde kernel (DArray [xs; ys]) None bw.
Proof.
  intros Hn. unfold weightedkde.gaussian_kde.
  case_decide; [lia|].
  rewrite decide_False by (rewrite length_replicate; by intros ?).
  assert (∀ n, existsb (λ wi : Q, Qgtb 0 wi) (replicate n 1) = false) as ->.
  { intros n. induction n as [|n IH]; [done|]. simpl. by rewrite IH. }
  destruct (length xs) as [|n]; [lia|].
  destruct (Qeq_bool _ 0) eqn:E; [|done].
  apply Qeq_bool_iff in E. pose proof (sum_replicate_pos n) as Hpos.
  rewrite E in Hpos. by apply Qlt_irrefl in Hpos.
Qed.

(** Whatever the fit, the unweighted branch does not read the coordinate
    array that the weighted branch fits. *)
Lemma unweighted_ignores_coordinates gaussian_kde osrm snap resolution bw
    self coordinates :
  (estimate_stops gaussian_kde osrm false snap resolution bw
     (set__p_coordinates coordinates self).1).2
  = (estimate_stops gaussian_kde osrm false snap resolution bw self).2.
Proof.
  unfold estimate_stops.
  cbv beta iota delta [m_bind lift get m_ret set__stop_prob set__p_coordinates
                       points weights].
  cbn [fst _stop_prob _points _weights __p_coordinates __boundaries].
  destruct (linspace (nth 0 _ 0) _ _) as [x|]; [|done].
  destruct (linspace (nth 2 _ 0) _ _) as [y|]; [|done].
  destruct (meshgrid x y) as [xx yy].
  destruct (py_not (_stop_prob self)) as [[|]|]; [| |done].
  - destruct (gaussian_kde _ _ _) as [pdf|]; [|done].
    cbn [_stop_prob].
    destruct (bool_index xx _) as [sel_x|]; [|reflexivity].
    destruct (bool_index yy _) as [sel_y|]; [|reflexivity].
    destruct (if snap then _ else _); reflexivity.
  - destruct (_stop_prob self) as [a|]; cbn [_stop_prob]; [|reflexivity].
    destruct (bool_index xx _) as [sel_x|]; [|reflexivity].
    destruct (bool_index yy _) as [sel_y|]; [|reflexivity].
    destruct (if snap then _ else _); reflexivity.
Qed.

(** The unweighted branch hands the geometries to the fit, which the
    modelled fit refuses. *)
Lemma unweighted_fit_raises kernel osrm snap resolution bw self :
  _stop_prob self = None → (0 ≤ resolution)%Z →
  estimate_stops (weightedkde.gaussian_kde kernel) osrm false snap resolution bw self
    = (self, Raise TypeError).
Proof. intros. by apply fit_error_surfaces. Qed.

(** ** The claims about construction, the setters and [route_dist] *)

(** C6, amended: an assignment to [weights] always completes, sets
    [stop_prob] to [None] and keeps points and boundaries; an assignment to
    [points] that completes sets [stop_prob] to [None], stores the point
    set and recomputes the boundaries as [xmin, xmax, ymin, ymax], the
    least and greatest [x] and the least and greatest [y] of the new point
    set; every assignment of a non-empty point set completes; and the state
    after either of these assignments does not depend on the surface cached
    before it, so that no earlier surface is used again.  The other
    assignments to [points] do not reset the surface: [None] raises
    [AttributeError] at line 37 and changes nothing, and an empty point
    set raises [ValueError] at line 39, with the point set replaced and
    the surface, the boundaries and the weights as they were. *)
Theorem setters_reset_stop_prob :
  (∀ self value,
     ∃ self', weights_setter value self = (self', Return tt) ∧
       _stop_prob self' = None ∧ _weights self' = value ∧
       _points self' = _points self ∧
       __boundaries self' = __boundaries self) ∧
  (∀ self geometry self',
     points_setter (Some geometry) self = (self', Return tt) →
     _stop_prob self' = None ∧ _points self' = geometry ∧
     bounds_of geometry (__boundaries self')) ∧
  (∀ self p g, ∃ self', points_setter (Some (p :: g)) self = (self', Return tt)) ∧
  (∀ self cached value,
     (weights_setter value (with_stop_prob cached self)).1
     = (weights_setter value self).1) ∧
  (∀ self cached p g,
     (points_setter (Some (p :: g)) (with_stop_prob cached self)).1
     = (points_setter (Some (p :: g)) self).1) ∧
  (∀ self, points_setter None self = (self, Raise AttributeError)) ∧
  (∀ self,
     ∃ self', points_setter (Some []) self = (self', Raise ValueError) ∧
       _points self' = [] ∧ _stop_prob self' = _stop_prob self ∧
       __boundaries self' = __boundaries self ∧
       _weights self' = _weights self).
Proof.
  split_and!.
  - intros self value. by eexists.
  - intros self [|p g] self'.
    + by rewrite points_setter_empty.
    + rewrite points_setter_cons. intros [= <-]. simpl.
      split_and!; [done..|]. apply bounds_of_cons.
  - intros self p g. rewrite points_setter_cons. by eexists.
  - done.
  - intros self cached p g. by rewrite !points_setter_cons.
  - apply points_setter_None.
  - intros self. rewrite points_setter_empty. by eexists.
Qed.

(** C6 as claimed fails: [Estimator(cross)] after
    [estimate_stops(resolution=1)] holds a surface of one entry; the
    assignment [e.points = GeoSeries([])] raises [ValueError] and leaves
    the estimator with no points, the surface and the boundaries of the old
    points; the next [estimate_stops(resolution=1)] returns from that
    surface, where a fit of the points now held would have been refused.
    The assignment of [None] leaves the surface as well. *)
Lemma refused_assignment_keeps_surface :
  Sample.coarse_run.2 = Return [] ∧
  _stop_prob Sample.coarse_run.1 ≠ None ∧
  points_setter (Some []) Sample.coarse_run.1
    = (Sample.emptied, Raise ValueError) ∧
  _points Sample.emptied = [] ∧
  _stop_prob Sample.emptied = _stop_prob Sample.coarse_run.1 ∧
  boundaries Sample.emptied = [0; 2; 0; 2] ∧
  Sample.fit (DArray (__p_coordinates Sample.emptied))
    (weights Sample.emptied) (1 # 10) = Raise InvalidInputError ∧
  estimate_stops Sample.fit Sample.offline true false 1 (1 # 10) Sample.emptied
    = (Sample.emptied, Return []) ∧
  _stop_prob (points_setter None Sample.coarse_run.1).1 ≠ None.
Proof. split_and!; by vm_compute. Qed.

(** A construction that completes leaves the boundaries of its points. *)
Lemma init_points_assigned input_points weights self :
  __init__ input_points weights = Return self → points_assigned self.
Proof.
  destruct input_points as [[|p g]|]; [done| |done].
  unfold __init__, m_bind at 1 2.
  change (set__stop_prob None ?s) with (s, Return (A:=unit) tt) at 1.
  cbv beta iota. rewrite points_setter_cons. cbn. intros [= <-].
  split; [done|]. apply bounds_of_cons.
Qed.

(** C10: constructing an [Estimator] with [input_points=None] raises (the
    points setter's [AttributeError]); every construction that completes
    was given a non-empty point set and leaves the points, the coordinate
    array (the row of [x] and the row of [y]) and the boundaries set. *)
Theorem init_requires_points :
  (∀ weights, __init__ None weights = Raise AttributeError) ∧
  (∀ input_points weights self,
     __init__ input_points weights = Return self →
     ∃ geometry,
       input_points = Some geometry ∧ geometry ≠ [] ∧
       _points self = geometry ∧
       __p_coordinates self = [point_x <$> geometry; point_y <$> geometry] ∧
       bounds_of geometry (__boundaries self)).
Proof.
  split; [done|].
  intros [[|p g]|] weights self; unfold __init__, m_bind at 1 2.
  - done.
  - change (set__stop_prob None ?s) with (s, Return (A:=unit) tt) at 1.
    cbv beta iota.
    rewrite points_setter_cons. cbn. intros [= <-]. exists (p :: g). cbn.
    split_and!; [done..|]. apply bounds_of_cons.
  - done.
Qed.

(** C7, amended: with routes, [route_dist] returns one distance per point
    of the point set, in order, each the least of the point's distances to
    the routes and hence not negative where those distances are not; for
    an empty collection of routes it raises the built-in [ValueError] of
    [min] if the point set has a point, and returns the empty list if it
    has none. *)
Theorem route_dist_min_or_ValueError :
  ∀ (Route : Type) (distance : Point → Route → Q) (routes : list Route)
    (self : Estimator),
    (routes ≠ [] →
       ∃ min_dist,
         route_dist Route distance routes self = (self, Return min_dist) ∧
         Forall2 (λ point d,
                    is_min d (distance point <$> routes) ∧
                    ((∀ r, r ∈ routes → 0 <= distance point r) → 0 <= d))
                 (points self) min_dist) ∧
    (points self ≠ [] →
       route_dist Route distance [] self = (self, Raise ValueError)) ∧
    (points self = [] →
       route_dist Route distance routes self = (self, Return [])).
Proof.
  intros Route distance routes self. unfold route_dist, m_bind, get, lift.
  split_and!.
  - intros Hne. destruct routes as [|r routes]; [done|].
    edestruct (mapM_py_Return
      (λ point : Point, py_min (distance point <$> r :: routes))
      (λ point d, is_min d (distance point <$> r :: routes) ∧
         ((∀ r', r' ∈ r :: routes → 0 <= distance point r') → 0 <= d))
      (points self)) as (k & Hk & HF).
    + intros point _. rewrite fmap_cons.
      destruct (py_min_cons (distance point r) (distance point <$> routes))
        as (m & Hm & Hmin).
      exists m. split_and!; [done..|].
      intros Hpos. destruct Hmin as [Hin _].
      rewrite <- fmap_cons in Hin.
      apply list_elem_of_fmap in Hin as (r' & -> & Hr'). by apply Hpos.
    + exists k. by rewrite Hk.
  - intros Hne. destruct (points self) as [|p g]; [done|].
    by rewrite (mapM_py_Raise _ p g ValueError).
  - by intros ->.
Qed.

(** C7 as claimed fails: for an empty collection of routes the exception
    is [ValueError], not [InvalidInputError], and on the point set left by a
    refused assignment of no points nothing is raised. *)
Lemma route_dist_empty_routes_not_InvalidInputError :
  route_dist Q Sample.line_distance [] Sample.estimator
    = (Sample.estimator, Raise ValueError) ∧
  (route_dist Q Sample.line_distance [] Sample.estimator).2
    ≠ Raise InvalidInputError ∧
  (route_dist Q Sample.line_distance []
     (points_setter (Some []) Sample.estimator).1).2 = Return [].
Proof. by split_and!. Qed.

(** C4, amended: the points setter does not count the points.  It raises
    [AttributeError] for [None] and [ValueError] for an empty collection, and
    completes for every collection of one point or more.  The density fit
    (modelled from the spec) raises [InvalidInputError] for fewer than two
    points and for a weight vector whose length is not the number of
    points.  An exception of the fit is raised by [estimate_stops]
    unchanged, the state being left as it was. *)
Theorem invalid_input_is_surfaced :
  (∀ self, (points_setter None self).2 = Raise AttributeError) ∧
  (∀ self, (points_setter (Some []) self).2 = Raise ValueError) ∧
  (∀ self p g, (points_setter (Some (p :: g)) self).2 = Return tt) ∧
  (∀ kernel xs ys weights bw,
     (length xs < 2)%nat →
     weightedkde.gaussian_kde kernel (DArray [xs; ys]) weights bw
     = Raise InvalidInputError) ∧
  (∀ kernel xs ys w bw,
     length w ≠ length xs →
     weightedkde.gaussian_kde kernel (DArray [xs; ys]) (Some w) bw
     = Raise InvalidInputError) ∧
  (∀ gaussian_kde osrm_nearest (weighted snap : bool) resolution bw self e,
     _stop_prob self = None → (0 ≤ resolution)%Z →
     (if weighted
      then gaussian_kde (DArray (__p_coordinates self)) (weights self) bw
      else gaussian_kde (DGeo (points self)) None bw) = Raise e →
     estimate_stops gaussian_kde osrm_nearest weighted snap resolution bw self
     = (self, Raise e)).
Proof.
  split_and!.
  - done.
  - done.
  - intros self p g. by rewrite points_setter_cons.
  - intros kernel xs ys weights bw Hn. unfold weightedkde.gaussian_kde.
    by rewrite decide_True.
  - intros kernel xs ys w bw Hn. unfold weightedkde.gaussian_kde.
    case_decide; [done|]. by rewrite decide_True.
  - intros. by apply fit_error_surfaces.
Qed.

(** C4 as claimed fails: the points setter accepts a single point. *)
Lemma points_setter_accepts_one_point :
  points_setter (Some Sample.single) Sample.estimator
    = (Sample.estimator1, Return tt) ∧
  ¬ raises (points_setter (Some Sample.single) Sample.estimator).2 ∧
  __init__ (Some Sample.single) None = Return Sample.estimator1.
Proof. split_and!; [done| |done]. by intros [e He]. Qed.

(** ** The claims that the code breaks *)

(** C1 fails on the code: [Estimator(cross).estimate_stops(resolution=3)]
    returns one stop, and the same call repeated on the state it left
    raises [ValueError]: [not self._stop_prob] asks for the truth value of
    the cached array of nine entries. *)
Theorem second_estimate_stops_raises :
  Sample.first_run.2 = Return [(2 # 2, 2 # 2)] ∧
  estimate_stops Sample.fit Sample.offline true false 3 (1 # 10)
    Sample.first_run.1
  = (Sample.first_run.1, Raise ValueError).
Proof.
  split; [by vm_compute|].
  apply (second_call_raises _ _ _ _ _ _ Sample.estimator _ [(2 # 2, 2 # 2)]);
    [lia|]. by vm_compute.
Qed.

(** C3 fails on the code: with [weighted=False] the geometries, not the
    coordinates, are handed to the fit, and the call raises, whereas the
    weighted call with all weights 1 over the same points returns a
    stop. *)
Theorem unweighted_differs_from_unit_weights :
  estimate_stops Sample.fit Sample.offline false false 3 (1 # 10)
    Sample.estimator
  = (Sample.estimator, Raise TypeError) ∧
  (estimate_stops Sample.fit Sample.offline true false 3 (1 # 10)
     Sample.estimator_ones).2
  = Return [(2 # 2, 2 # 2)].
Proof.
  split; [|by vm_compute].
  by apply unweighted_fit_raises.
Qed.

(** C8 fails on the code: with one candidate and a routing service that
    does not answer, [estimate_stops(snap_to_street=True)] raises
    [IndexError]; with two candidates (at [(x, y) = (3, 1)] and [(1, 3)])
    it raises [TypeError] when both lookups fail and [ValueError] when
    only the first fails.  The sentinel is substituted and the call
    returns only when the first lookup succeeded; with a service that
    answers no request no call with road snapping returns, whatever the
    fit and the state. *)
Theorem failed_snap_raises :
  Sample.first_run.2 = Return [(2 # 2, 2 # 2)] ∧
  (estimate_stops Sample.fit Sample.offline true true 3 (1 # 10)
     Sample.estimator).2 = Raise IndexError ∧
  (estimate_stops Sample.fit Sample.offline true true 5 (1 # 10)
     Sample.estimator2).2 = Raise TypeError ∧
  Sample.second_run.2 = Return [(4 # 4, 12 # 4); (12 # 4, 4 # 4)] ∧
  (estimate_stops Sample.fit (Sample.down_at 3) true true 5 (1 # 10)
     Sample.estimator2).2 = Raise ValueError ∧
  (estimate_stops Sample.fit (Sample.down_at 1) true true 5 (1 # 10)
     Sample.estimator2).2 = Return [(12 # 8, 28 # 8); (0, 0)] ∧
  (∀ gaussian_kde weighted resolution bw self,
     raises (estimate_stops gaussian_kde Sample.offline weighted true
               resolution bw self).2).
Proof.
  split_and!; try by vm_compute.
  intros. by apply snap_without_service_raises.
Qed.

(** ** The theorems at concrete inputs *)

Lemma candidates_are_strict_maxima_witness :
  Sample.first_run = (Sample.first_run.1, Return [(2 # 2, 2 # 2)]) ∧
  ∃ x y data,
    _stop_prob Sample.first_run.1 = Some data ∧
    [(2 # 2, 2 # 2)]
    = (λ ij : nat * nat, (nth ij.1 y 0, nth ij.2 x 0)) <$> candidate_cells data ∧
    (∀ i j, (i, j) ∈ candidate_cells data
            ↔ strict_local_max data (length x) i j).
Proof.
  split; [vm_compute; reflexivity|].
  destruct (candidates_are_strict_maxima Sample.fit Sample.offline true 3
              (1 # 10) Sample.estimator Sample.first_run.1 [(2 # 2, 2 # 2)])
    as (x & y & data & _ & _ & Hd & _ & Hl & Hiff & _);
    [vm_compute; reflexivity|].
  exists x, y, data. exact (conj Hd (conj Hl Hiff)).
Defined.

Lemma stops_are_y_x_pairs_witness :
  Sample.second_run
  = (Sample.second_run.1, Return [(4 # 4, 12 # 4); (12 # 4, 4 # 4)]) ∧
  ∃ data xx yy,
    _stop_prob Sample.second_run.1 = Some data ∧
    [(4 # 4, 12 # 4); (12 # 4, 4 # 4)]
    = (λ ij : nat * nat, (entry yy ij.1 ij.2, entry xx ij.1 ij.2))
        <$> candidate_cells data.
Proof.
  split; [vm_compute; reflexivity|].
  destruct (stops_are_y_x_pairs Sample.fit Sample.offline true 5
              (1 # 10) Sample.estimator2 Sample.second_run.1
              [(4 # 4, 12 # 4); (12 # 4, 4 # 4)])
    as (x & y & data & xx & yy & _ & _ & _ & Hd & _ & _ & Hl & _);
    [vm_compute; reflexivity|].
  exists data, xx, yy. exact (conj Hd Hl).
Defined.

Lemma stops_within_boundaries_witness :
  points_assigned Sample.estimator ∧
  Sample.first_run = (Sample.first_run.1, Return [(2 # 2, 2 # 2)]) ∧
  Forall (within (boundaries Sample.estimator)) [(2 # 2, 2 # 2)] ∧
  boundaries Sample.first_run.1 = boundaries Sample.estimator.
Proof.
  assert (points_assigned Sample.estimator) as Hp
    by (apply (init_points_assigned (Some Sample.cross) None); reflexivity).
  split; [exact Hp|]. split; [vm_compute; reflexivity|].
  apply (stops_within_boundaries Sample.fit Sample.offline true 3 (1 # 10));
    [exact Hp|vm_compute; reflexivity].
Defined.

Lemma setters_reset_stop_prob_witness :
  points_setter (Some Sample.square) Sample.first_run.1
    = (Sample.estimator2, Return tt) ∧
  _stop_prob Sample.estimator2 = None ∧
  _points Sample.estimator2 = Sample.square ∧
  bounds_of Sample.square (__boundaries Sample.estimator2).
Proof.
  split; [vm_compute; reflexivity|].
  apply (proj1 (proj2 setters_reset_stop_prob) Sample.first_run.1).
  vm_compute; reflexivity.
Defined.

Lemma init_requires_points_witness :
  __init__ (Some Sample.cross) None = Return Sample.estimator ∧
  ∃ geometry,
    Some Sample.cross = Some geometry ∧ geometry ≠ [] ∧
    _points Sample.estimator = geometry ∧
    __p_coordinates Sample.estimator
      = [point_x <$> geometry; point_y <$> geometry] ∧
    bounds_of geometry (__boundaries Sample.estimator).
Proof.
  split; [reflexivity|].
  apply (proj2 init_requires_points (Some Sample.cross) None). reflexivity.
Defined.

Lemma route_dist_min_or_ValueError_witness :
  [0; 3] ≠ [] ∧ points Sample.estimator ≠ [] ∧
  (∃ min_dist,
     route_dist Q Sample.line_distance [0; 3] Sample.estimator
       = (Sample.estimator, Return min_dist) ∧
     Forall2 (λ point d,
                is_min d (Sample.line_distance point <$> [0; 3]) ∧
                ((∀ r, r ∈ [0; 3] → 0 <= Sample.line_distance point r) → 0 <= d))
             (points Sample.estimator) min_dist) ∧
  route_dist Q Sample.line_distance [] Sample.estimator
    = (Sample.estimator, Raise ValueError).
Proof.
  assert ([0; 3] ≠ @nil Q) as H1 by discriminate.
  assert (points Sample.estimator ≠ []) as H2 by discriminate.
  split; [exact H1|]. split; [exact H2|].
  destruct (route_dist_min_or_ValueError Q Sample.line_distance [0; 3]
              Sample.estimator) as (Hroutes & _).
  destruct (route_dist_min_or_ValueError Q Sample.line_distance []
              Sample.estimator) as (_ & Hempty & _).
  exact (conj (Hroutes H1) (Hempty H2)).
Defined.

Lemma invalid_input_is_surfaced_witness :
  (length [1%Q] < 2)%nat ∧ length [1; 1; 1] ≠ length [0; 2] ∧
  _stop_prob Sample.estimator1 = None ∧ (0 ≤ 3)%Z ∧
  weightedkde.gaussian_kde weightedkde.bell (DArray [[1]; [2]]) None (1 # 10)
    = Raise InvalidInputError ∧
  weightedkde.gaussian_kde weightedkde.bell (DArray [[0; 2]; [0; 2]])
    (Some [1; 1; 1]) (1 # 10) = Raise InvalidInputError ∧
  estimate_stops Sample.fit Sample.offline true false 3 (1 # 10)
    Sample.estimator1 = (Sample.estimator1, Raise InvalidInputError).
Proof.
  destruct invalid_input_is_surfaced as (_ & _ & _ & Hfew & Hlen & Hsurf).
  assert (length [1%Q] < 2)%nat as H1 by (simpl; lia).
  assert (length [1; 1; 1] ≠ length [0; 2]) as H2 by (simpl; lia).
  assert (0 ≤ 3)%Z as H3 by lia.
  split; [exact H1|]. split; [exact H2|]. split; [reflexivity|].
  split; [exact H3|]. split; [exact (Hfew _ _ _ _ _ H1)|].
  split; [exact (Hlen _ _ _ _ _ H2)|].
  apply Hsurf; [reflexivity|exact H3|reflexivity].
Defined.

(** * Further properties of the module *)

(** ** Sampling the axes *)

(** [np.linspace] raises for a negative number of samples only. *)
Lemma linspace_Raise (a b : Q) (r : Z) (e : exn) :
  linspace a b r = Raise e → e = ValueError ∧ (r < 0)%Z.
Proof.
  unfold linspace. destruct (r <? 0)%Z eqn:E; [|done]. intros [= <-].
  split; [done|lia].
Qed.

Lemma linspace_negative (a b : Q) (r : Z) :
  (r < 0)%Z → linspace a b r = Raise ValueError.
Proof. intros Hr. unfold linspace. by destruct (r <? 0)%Z eqn:E; [|lia]. Qed.

(** The samples of [linspace] increase with the index when the end points
    are apart. *)
Lemma linspace_increasing (a b : Q) (r : Z) (x : list Q) (i j : nat) :
  a < b → linspace a b r = Return x →
  (i < j)%nat → (j < length x)%nat → nth i x 0 < nth j x 0.
Proof.
  intros Hab. unfold linspace. destruct (r <? 0)%Z; [done|].
  intros [= <-] Hij. destruct (Z.to_nat r) as [|[|k]]; simpl length; [lia..|].
  rewrite length_app, length_fmap, length_seq. simpl length. intros Hj.
  set (n := inject_Z (Z.of_nat (S k))).
  assert (0 < n) as Hn.
  { unfold n. change 0 with (inject_Z 0). rewrite <- Zlt_Qlt. lia. }
  assert (0 < (b - a) / n) as Hstep.
  { apply Qlt_shift_div_l; [done|]. lra. }
  set (f := λ i : nat, inject_Z (Z.of_nat i) * ((b - a) / n) + a).
  assert (∀ m, (m < S k)%nat → nth m ((f <$> seq 0 (S k)) ++ [b]) 0 = f m) as Hnth.
  { intros m Hm. apply nth_lookup_Some.
    rewrite lookup_app_l by (rewrite length_fmap, length_seq; lia).
    rewrite list_lookup_fmap, lookup_seq_lt by lia. done. }
  assert (nth (S k) ((f <$> seq 0 (S k)) ++ [b]) 0 = b) as Hlast.
  { apply nth_lookup_Some.
    rewrite lookup_app_r by (rewrite length_fmap, length_seq; lia).
    rewrite length_fmap, length_seq, Nat.sub_diag. done. }
  assert (∀ m m', (m < m')%nat → f m < f m') as Hmono.
  { intros m m' Hlt. unfold f.
    assert (inject_Z (Z.of_nat m) < inject_Z (Z.of_nat m')) as Hq
      by (rewrite <- Zlt_Qlt; lia).
    nra. }
  assert (f (S k) == b) as Hend.
  { unfold f. fold n. field. lra. }
  change (nth i ((f <$> seq 0 (S k)) ++ [b]) 0
          < nth j ((f <$> seq 0 (S k)) ++ [b]) 0).
  rewrite (Hnth i) by lia.
  destruct (decide (j = S k)) as [->|Hne].
  - rewrite Hlast, <- Hend. apply Hmono. lia.
  - rewrite (Hnth j) by lia. by apply Hmono.
Qed.

(** ** The surface on the grid *)

(** [np.reshape(pdf((np.ravel(xx), np.ravel(yy))), xx.shape)] evaluates
    [pdf] cell by cell. *)
Lemma reshape_zip_with (f : Q → Q → Q) (a b : list (list Q)) (r c : nat) :
  rect a r c → rect b r c →
  reshape r c (zip_with f (concat a) (concat b)) = zip_with (zip_with f) a b.
Proof.
  unfold rect, lens. revert b r.
  induction a as [|ra a IH]; intros [|rb b] [|r] Ha Hb; simpl in *; try done.
  injection Ha as Hra Ha. injection Hb as Hrb Hb.
  rewrite zip_with_app by congruence.
  assert (length (zip_with f ra rb) = c) as Hl
    by (rewrite length_zip_with; lia).
  rewrite take_app_length', drop_app_length' by done.
  f_equal. by apply IH.
Qed.

Lemma rect_zip_with {A B C : Type} (f : A → B → C)
    (a : list (list A)) (b : list (list B)) (r c : nat) :
  rect a r c → rect b r c → rect (zip_with (zip_with f) a b) r c.
Proof.
  unfold rect. intros Ha Hb. rewrite lens_zip_with; [done|congruence].
Qed.

Lemma entry_zip_with (f : Q → Q → Q) (a b : list (list Q)) (r c i j : nat) :
  rect a r c → rect b r c → (i < r)%nat → (j < c)%nat →
  entry (zip_with (zip_with f) a b) i j = f (entry a i j) (entry b i j).
Proof.
  intros Ha Hb Hi Hj.
  pose proof (cell_entry _ r c i j (rect_zip_with f a b r c Ha Hb) Hi Hj) as E.
  rewrite cell_zip_with, (cell_entry a r c), (cell_entry b r c) in E by done.
  simpl in E. by injection E.
Qed.

(** ** Order of the candidate cells *)

Lemma nonzero_row_sorted (row : list bool) (k : nat) :
  StronglySorted lt (nonzero_row k row).
Proof.
  revert k. induction row as [|b row IH]; intros k; simpl; [constructor|].
  apply StronglySorted_app_2; [|destruct b; repeat constructor|apply IH].
  intros j j' Hj Hj'. destruct b; [|by apply elem_of_nil in Hj].
  apply list_elem_of_singleton in Hj as ->.
  apply elem_of_nonzero_row in Hj' as [Hle _]. lia.
Qed.

Lemma cells_sorted (b : list (list bool)) (k : nat) :
  StronglySorted lex_lt
    (concat (imap (λ i row, (λ j, (k + i, j)%nat) <$> nonzero_row 0 row) b)).
Proof.
  revert k. induction b as [|row b IH]; intros k; [constructor|].
  rewrite imap_cons. simpl. apply StronglySorted_app_2.
  - intros [i j] [i' j'] Hin Hin'.
    apply list_elem_of_fmap in Hin as (? & [= -> ->] & _).
    apply elem_of_concat_imap in Hin' as (n & row' & _ & Hin').
    apply list_elem_of_fmap in Hin' as (? & [= -> ->] & _).
    left. simpl. lia.
  - apply (StronglySorted_fmap _ lt); [|apply nonzero_row_sorted].
    intros j j' Hlt. right. simpl. done.
  - erewrite imap_ext; [apply (IH (S k))|].
    intros i row' _. simpl. apply list_fmap_ext. intros _ j _. f_equal. lia.
Qed.

(** [np.nonzero] lists the cells in row-major order. *)
Lemma nonzero_cells_sorted (b : list (list bool)) :
  StronglySorted lex_lt (nonzero_cells b).
Proof. apply (cells_sorted b 0). Qed.

Lemma lex_lt_irrefl (a : nat * nat) : ¬ lex_lt a a.
Proof. unfold lex_lt. lia. Qed.

Lemma sorted_NoDup (l : list (nat * nat)) : StronglySorted lex_lt l → NoDup l.
Proof.
  induction 1 as [|a l Hl IH Hall]; constructor; [|done].
  intros Hin. rewrite Forall_forall in Hall.
  apply (lex_lt_irrefl a). by apply Hall.
Qed.

Lemma StronglySorted_fmap_in {A B : Type} (R : relation A) (R' : relation B)
    (f : A → B) (l : list A) :
  (∀ a b, a ∈ l → b ∈ l → R a b → R' (f a) (f b)) →
  StronglySorted R l → StronglySorted R' (f <$> l).
Proof.
  intros Hf Hs. induction Hs as [|a l Hs IH Hall]; [constructor|].
  rewrite fmap_cons. constructor.
  - apply IH. intros u v Hu Hv. apply Hf; by right.
  - rewrite Forall_fmap. rewrite Forall_forall in Hall |- *.
    intros v Hv. apply Hf; [left|by right|by apply Hall].
Qed.

(** The cell to the right of a candidate cell and the cell below it are
    no candidates. *)
Lemma candidates_not_adjacent (data : array2) (r c i j : nat) :
  rect data r c → (i, j) ∈ candidate_cells data →
  ((i, S j) ∉ candidate_cells data) ∧ ((S i, j) ∉ candidate_cells data).
Proof.
  intros Hdata Hin.
  apply (candidate_cells_strict_max data r c) in Hin as (_ & _ & H2 & _ & H4);
    [|done].
  split; intros Hin';
    apply (candidate_cells_strict_max data r c) in Hin' as (_ & H1' & _ & H3' & _);
    try done; simpl in *; rewrite ?Nat.sub_0_r in *.
  - by apply (Qlt_irrefl (entry data i j)), Qlt_trans with (entry data i (S j)).
  - by apply (Qlt_irrefl (entry data i j)), Qlt_trans with (entry data (S i) j).
Qed.

(** ** Road snapping with a service that answers *)


Section Snap.

Variable osrm_nearest : Q → Q → option (list number).
Variable service : Q → Q → number * number.
Hypothesis answers :
  ∀ x y, osrm_nearest x y = Some [(service x y).1; (service x y).2].






End Snap.

(** ** Minimum distances over more routes *)

Lemma py_min_subseteq (l l' : list Q) (m : Q) :
  py_min l = Return m → (∀ v, v ∈ l → v ∈ l') →
  ∃ m', py_min l' = Return m' ∧ m' <= m.
Proof.
  intros Hm Hsub. destruct l as [|v l]; [done|].
  destruct (py_min_cons v l) as (m0 & Hm0 & Hin & _).
  rewrite Hm in Hm0. injection Hm0 as <-.
  apply Hsub in Hin. destruct l' as [|v' l']; [by apply elem_of_nil in Hin|].
  destruct (py_min_cons v' l') as (m' & Hm' & _ & Hle).
  exists m'. split; [done|]. by apply Hle.
Qed.

Lemma mapM_py_rel {A : Type} (R : Q → Q → Prop) (f1 f2 : A → py Q)
    (g : list A) (d1 : list Q) :
  (∀ p a, f1 p = Return a → ∃ b, f2 p = Return b ∧ R b a) →
  mapM f1 g = Return d1 →
  ∃ d2, mapM f2 g = Return d2 ∧ Forall2 R d2 d1.
Proof.
  intros Hf. revert d1. induction g as [|p g IH]; intros d1.
  - intros [= <-]. exists []. split; [done|constructor].
  - rewrite !mapM_py_cons.
    destruct (f1 p) as [a|] eqn:E1; [|done].
    destruct (Hf p a E1) as (b & -> & Hba). simpl.
    destruct (mapM f1 g) as [k1|]; [|done].
    destruct (IH k1 eq_refl) as (k2 & -> & Hk). simpl.
    intros [= <-]. exists (b :: k2). split; [done|by constructor].
Qed.

Lemma min_dist_subseteq (Route : Type) (distance : Point → Route → Q)
    (routes routes' : list Route) (point : Point) (a : Q) :
  (∀ r, r ∈ routes → r ∈ routes') →
  py_min (distance point <$> routes) = Return a →
  ∃ b, py_min (distance point <$> routes') = Return b ∧ b <= a.
Proof.
  intros Hsub Ha. apply (py_min_subseteq _ _ _ Ha).
  intros v (r & -> & Hr)%list_elem_of_fmap.
  apply list_elem_of_fmap. exists r. split; [done|by apply Hsub].
Qed.

(** ** Assignments after an estimate *)

Lemma assignment_after_surface self data w p g :
  weights_setter w (with_stop_prob data self) = weights_setter w self ∧
  points_setter (Some (p :: g)) (with_stop_prob data self)
  = points_setter (Some (p :: g)) self.
Proof. split; [done|]. by rewrite !points_setter_cons. Qed.

(** ** Calls of [estimate_stops] *)

Section Calls.

Variable gaussian_kde : dataset → option (list Q) → Q → py (Q → Q → Q).
Variable osrm_nearest : Q → Q → option (list number).

(** A call leaves the state as it was, or with a new surface. *)
Lemma estimate_stops_frame weighted snap resolution bw self :
  (estimate_stops gaussian_kde osrm_nearest weighted snap resolution bw self).1
  = self
  ∨ ∃ data,
      (estimate_stops gaussian_kde osrm_nearest weighted snap resolution bw self).1
      = with_stop_prob data self.
Proof.
  unfold estimate_stops.
  cbv beta iota delta [m_bind lift get m_ret set__stop_prob].
  destruct (linspace (nth 0 _ 0) _ _) as [x|]; [|by left].
  destruct (linspace (nth 2 _ 0) _ _) as [y|]; [|by left].
  destruct (meshgrid x y) as [xx yy].
  destruct (py_not (_stop_prob self)) as [[|]|]; [| |by left].
  - destruct (if weighted then _ else _) as [pdf|]; [|by left].
    right. eexists. cbn [_stop_prob].
    destruct (bool_index xx _); [|reflexivity].
    destruct (bool_index yy _); [|reflexivity].
    destruct (if snap then _ else _); reflexivity.
  - left. destruct (_stop_prob self); [|reflexivity].
    destruct (bool_index xx _); [|reflexivity].
    destruct (bool_index yy _); [|reflexivity].
    destruct (if snap then _ else _); reflexivity.
Qed.

(** The state after a call that fits: the surface is [pdf] on the grid. *)
Lemma estimate_stops_fits (weighted snap : bool) resolution bw self pdf :
  _stop_prob self = None → (0 ≤ resolution)%Z →
  (if weighted
   then gaussian_kde (DArray (__p_coordinates self)) (weights self) bw
   else gaussian_kde (DGeo (points self)) None bw) = Return pdf →
  ∃ x y,
    linspace (nth 0 (__boundaries self) 0) (nth 1 (__boundaries self) 0)
             resolution = Return x ∧
    linspace (nth 2 (__boundaries self) 0) (nth 3 (__boundaries self) 0)
             resolution = Return y ∧
    length x = Z.to_nat resolution ∧ length y = Z.to_nat resolution ∧
    (estimate_stops gaussian_kde osrm_nearest weighted snap resolution bw self).1
    = with_stop_prob
        (zip_with (zip_with pdf) (meshgrid x y).1 (meshgrid x y).2) self.
Proof.
  intros Hnone Hr Hfit. unfold estimate_stops.
  cbv beta iota delta [m_bind lift get m_ret set__stop_prob].
  destruct (linspace_Return (nth 0 (__boundaries self) 0)
              (nth 1 (__boundaries self) 0) resolution Hr) as [x Hx].
  destruct (linspace_Return (nth 2 (__boundaries self) 0)
              (nth 3 (__boundaries self) 0) resolution Hr) as [y Hy].
  rewrite Hx, Hy. exists x, y.
  destruct (linspace_length _ _ _ _ Hx) as [_ Hlx].
  destruct (linspace_length _ _ _ _ Hy) as [_ Hly].
  split_and!; try done.
  assert (length y = length x) as Hyx by congruence.
  pose proof (rect_meshgrid_1 x y) as Hxx.
  pose proof (rect_meshgrid_2 x y) as Hyy.
  destruct (meshgrid x y) as [xx yy]. cbn [fst snd] in Hxx, Hyy |- *.
  rewrite Hnone, Hfit. cbn [py_not _stop_prob].
  assert (reshape (shape xx).1 (shape xx).2 (zip_with pdf (ravel xx) (ravel yy))
          = zip_with (zip_with pdf) xx yy) as ->.
  { unfold shape, ravel. rewrite Hyx in Hxx, Hyy.
    rewrite (shape_rect xx (length x) Hxx). simpl.
    by apply reshape_zip_with. }
  destruct (bool_index xx _); [|reflexivity].
  destruct (bool_index yy _); [|reflexivity].
  destruct (if snap then _ else _); reflexivity.
Qed.

(** Lines 95 to 98 are all that reads [snap_to_street]. *)
Lemma estimate_stops_finish weighted resolution bw self self' l :
  estimate_stops gaussian_kde osrm_nearest weighted false resolution bw self
    = (self', Return l) →
  ∃ sel_x sel_y,
    length sel_x = length sel_y ∧ l = zip sel_y sel_x ∧
    ∀ snap,
      estimate_stops gaussian_kde osrm_nearest weighted snap resolution bw self
      = (self', finish_stops osrm_nearest snap sel_x sel_y).
Proof.
  intros H.
  destruct (estimate_stops_candidates _ _ _ _ _ _ _ _ H)
    as (x & y & data & Hx & Hy & -> & Hdata & Hsx & Hsy & ->).
  eexists _, _. split; [|split; [symmetry; apply zip_fmap|]].
  { by rewrite !length_fmap. }
  intros snap. revert H. unfold estimate_stops, finish_stops.
  cbv beta iota delta [m_bind lift get m_ret set__stop_prob].
  rewrite Hx, Hy.
  destruct (meshgrid x y) as [xx yy] eqn:Hmesh. cbn [fst snd] in Hsx, Hsy.
  destruct (py_not (_stop_prob self)) as [[|]|] eqn:Hnot; [| |done].
  - destruct (if weighted then _ else _) as [pdf|]; [|done].
    cbv beta iota delta [_stop_prob].
    set (d := reshape _ _ _).
    destruct (bool_index xx (eq_scalar (maxima_out d) 2)) as [sx|] eqn:Ex; [|done].
    destruct (bool_index yy (eq_scalar (maxima_out d) 2)) as [sy|] eqn:Ey; [|done].
    cbv beta iota. intros [= Hd Hl]. rewrite Hd in Ex, Ey |- *.
    rewrite Hsx in Ex. rewrite Hsy in Ey. injection Ex as <-. injection Ey as <-.
    destruct (if snap then _ else _); reflexivity.
  - destruct (_stop_prob self) as [a|] eqn:Hc; [|done].
    destruct (bool_index xx (eq_scalar (maxima_out a) 2)) as [sx|] eqn:Ex; [|done].
    destruct (bool_index yy (eq_scalar (maxima_out a) 2)) as [sy|] eqn:Ey; [|done].
    cbv beta iota. intros [= Hd Hl].
    assert (a = data) as ->.
    { apply (f_equal _stop_prob) in Hd. simpl in Hd. congruence. }
    rewrite Hsx in Ex. rewrite Hsy in Ey. injection Ex as <-. injection Ey as <-.
    rewrite Hd. destruct (if snap then _ else _); reflexivity.
Qed.

(** A grid of two by two or less has no cell with a neighbour on either
    side. *)
Lemma small_grid_no_stops weighted resolution bw self self' l :
  (resolution ≤ 2)%Z →
  estimate_stops gaussian_kde osrm_nearest weighted false resolution bw self
  = (self', Return l) → l = [].
Proof.
  intros Hr (x & y & data & Hx & Hy & -> & Hdata & _ & _ & ->)
    %estimate_stops_candidates.
  destruct (linspace_length _ _ _ _ Hy) as [_ Hly].
  destruct (candidate_cells data) as [|[i j] cs] eqn:E; [done|].
  assert ((i, j) ∈ candidate_cells data) as Hin by (rewrite E; left).
  apply (candidate_cells_strict_max data (length y) (length x)) in Hin; [|done].
  destruct Hin as [(Hi0 & Hi & _) _]. rewrite (rect_length _ _ _ Hdata) in Hi. lia.
Qed.

(** X1: [estimate_stops] assigns no attribute but the cached surface.
    Whatever the arguments and whether the call returns or raises, the
    point set, the weights, the coordinate array and the boundaries of the
    state it leaves are those of the state it was called on. *)
Theorem estimate_stops_keeps_inputs weighted snap resolution bw self :
  points (estimate_stops gaussian_kde osrm_nearest weighted snap resolution
            bw self).1 = points self ∧
  weights (estimate_stops gaussian_kde osrm_nearest weighted snap resolution
             bw self).1 = weights self ∧
  __p_coordinates (estimate_stops gaussian_kde osrm_nearest weighted snap
                     resolution bw self).1 = __p_coordinates self ∧
  boundaries (estimate_stops gaussian_kde osrm_nearest weighted snap resolution
                bw self).1 = boundaries self.
Proof.
  destruct (estimate_stops_frame weighted snap resolution bw self)
    as [E|[data E]]; rewrite E; by split_and!.
Qed.

(** X2: a negative [resolution] makes [estimate_stops] raise ValueError
    at line 75 ([np.linspace] refuses a negative number of samples), before
    anything is fitted or stored: the state is left as it was. *)
Theorem negative_resolution_raises weighted snap resolution bw self :
  (resolution < 0)%Z →
  estimate_stops gaussian_kde osrm_nearest weighted snap resolution bw self
  = (self, Raise ValueError).
Proof.
  intros Hr. unfold estimate_stops.
  cbv beta iota delta [m_bind lift get m_ret set__stop_prob].
  by rewrite linspace_negative.
Qed.

(** X3: while the state holds a cached surface of two entries or more,
    every call of [estimate_stops] raises ValueError and leaves the state
    as it is, whatever [weighted], [snap_to_street], [resolution] and
    [kernel_width] are: either line 75 refuses a negative [resolution], or
    line 78 takes the truth value of the array. *)
Theorem stale_surface_raises weighted snap resolution bw self a :
  _stop_prob self = Some a → (2 ≤ length (ravel a))%nat →
  estimate_stops gaussian_kde osrm_nearest weighted snap resolution bw self
  = (self, Raise ValueError).
Proof.
  intros Hc Hlen. unfold estimate_stops.
  cbv beta iota delta [m_bind lift get m_ret set__stop_prob].
  destruct (linspace (nth 0 _ 0) _ _) as [x|e] eqn:Hx;
    [|by apply linspace_Raise in Hx as [-> _]].
  destruct (linspace (nth 2 _ 0) _ _) as [y|e] eqn:Hy;
    [|by apply linspace_Raise in Hy as [-> _]].
  destruct (meshgrid x y) as [xx yy].
  rewrite Hc. unfold py_not, truth.
  by destruct (ravel a) as [|u [|v l]]; [simpl in Hlen; lia..|].
Qed.

(** X4: on a grid of one by one or two by two, a call without road
    snapping on a state without a surface returns the empty list whenever
    the fit succeeds: no cell of such a grid has a neighbour on either side
    along both axes. *)
Theorem grid_of_two_has_no_stops (weighted : bool) resolution bw self pdf :
  _stop_prob self = None → (1 ≤ resolution ≤ 2)%Z →
  (if weighted
   then gaussian_kde (DArray (__p_coordinates self)) (weights self) bw
   else gaussian_kde (DGeo (points self)) None bw) = Return pdf →
  (estimate_stops gaussian_kde osrm_nearest weighted false resolution bw self).2
  = Return [].
Proof.
  intros Hnone [Hr1 Hr2] Hfit.
  destruct (estimate_stops_returns gaussian_kde osrm_nearest weighted resolution
              bw self pdf Hnone ltac:(lia) Hfit) as (self' & l & Hrun).
  rewrite Hrun. cbn [snd]. f_equal.
  by apply (small_grid_no_stops weighted resolution bw self self' l).
Qed.

(** X5: a call on a state without a surface, with a fit that succeeds,
    leaves in [stop_prob] a surface of [resolution] rows and [resolution]
    columns whose entry in row [i] and column [j] is the fitted density at
    [(x[j], y[i])], where [x] and [y] are the samples of the two axes;
    this holds with and without road snapping, also when the snapping
    raises afterwards. *)
Theorem fitted_surface_on_grid (weighted snap : bool) resolution bw self pdf :
  _stop_prob self = None → (0 ≤ resolution)%Z →
  (if weighted
   then gaussian_kde (DArray (__p_coordinates self)) (weights self) bw
   else gaussian_kde (DGeo (points self)) None bw) = Return pdf →
  ∃ x y data,
    linspace (nth 0 (__boundaries self) 0) (nth 1 (__boundaries self) 0)
             resolution = Return x ∧
    linspace (nth 2 (__boundaries self) 0) (nth 3 (__boundaries self) 0)
             resolution = Return y ∧
    stop_prob
      (estimate_stops gaussian_kde osrm_nearest weighted snap resolution bw self).1
    = Some data ∧
    rect data (Z.to_nat resolution) (Z.to_nat resolution) ∧
    ∀ i j, (i < Z.to_nat resolution)%nat → (j < Z.to_nat resolution)%nat →
           entry data i j = pdf (nth j x 0) (nth i y 0).
Proof.
  intros Hnone Hr Hfit.
  destruct (estimate_stops_fits weighted snap resolution bw self pdf Hnone Hr Hfit)
    as (x & y & Hx & Hy & Hlx & Hly & E).
  exists x, y, (zip_with (zip_with pdf) (meshgrid x y).1 (meshgrid x y).2).
  pose proof (rect_meshgrid_1 x y) as Hxx.
  pose proof (rect_meshgrid_2 x y) as Hyy.
  rewrite Hlx, Hly in Hxx, Hyy.
  split_and!; try done.
  - by rewrite E.
  - by apply rect_zip_with.
  - intros i j Hi Hj.
    rewrite (entry_zip_with pdf _ _ _ _ i j Hxx Hyy Hi Hj).
    by rewrite entry_meshgrid_1, entry_meshgrid_2 by lia.
Qed.

(** X6: an estimate leaves no trace behind an assignment.  Assigning the
    weights, or a point set of one point or more, after a call of
    [estimate_stops] (whatever its arguments, returned or raised) gives
    the state that the same assignment gives without that call, so every
    later call of [estimate_stops] behaves as if the earlier one had never
    been made. *)
Theorem estimate_after_assignment weighted snap resolution bw
    weighted' snap' resolution' bw' self w p g :
  estimate_stops gaussian_kde osrm_nearest weighted' snap' resolution' bw'
    (weights_setter w
       (estimate_stops gaussian_kde osrm_nearest weighted snap resolution bw
          self).1).1
  = estimate_stops gaussian_kde osrm_nearest weighted' snap' resolution' bw'
      (weights_setter w self).1
  ∧
  estimate_stops gaussian_kde osrm_nearest weighted' snap' resolution' bw'
    (points_setter (Some (p :: g))
       (estimate_stops gaussian_kde osrm_nearest weighted snap resolution bw
          self).1).1
  = estimate_stops gaussian_kde osrm_nearest weighted' snap' resolution' bw'
      (points_setter (Some (p :: g)) self).1.
Proof.
  destruct (estimate_stops_frame weighted snap resolution bw self)
    as [E|[data E]]; rewrite E; [done|].
  destruct (assignment_after_surface self data w p g) as [-> ->]. done.
Qed.


(** X8: when the call without road snapping finds no stop, the call with
    road snapping raises ValueError, whatever the routing service does:
    [np.apply_along_axis] refuses an array without rows.  The surface has
    been stored by then. *)
Theorem snap_without_stops_raises weighted resolution bw self self' :
  estimate_stops gaussian_kde osrm_nearest weighted false resolution bw self
    = (self', Return []) →
  estimate_stops gaussian_kde osrm_nearest weighted true resolution bw self
  = (self', Raise ValueError).
Proof.
  intros (sx & sy & Hlen & Hz & Hsnap)%estimate_stops_finish.
  rewrite (Hsnap true). f_equal.
  destruct sx as [|u sx], sy as [|v sy]; try done.
Qed.

(** X9: when the boundaries are apart along both axes, the stops of a
    call without road snapping are listed by ascending [y], and by
    ascending [x] among stops of the same [y]; in particular none is
    listed twice. *)
Theorem stops_in_row_major_order weighted resolution bw self self' l :
  nth 0 (boundaries self) 0 < nth 1 (boundaries self) 0 →
  nth 2 (boundaries self) 0 < nth 3 (boundaries self) 0 →
  estimate_stops gaussian_kde osrm_nearest weighted false resolution bw self
    = (self', Return l) →
  StronglySorted yx_lt l.
Proof.
  intros Hxb Hyb (x & y & data & Hx & Hy & -> & Hdata & _ & _ & ->)
    %estimate_stops_candidates.
  apply (StronglySorted_fmap_in lex_lt); [|apply nonzero_cells_sorted].
  intros [i j] [i' j'] [Hi Hj]%(candidate_cells_lt data _ _ _ _ Hdata)
    [Hi' Hj']%(candidate_cells_lt data _ _ _ _ Hdata) Hlt.
  unfold yx_lt. cbn [fst snd].
  rewrite !entry_meshgrid_1, !entry_meshgrid_2 by done.
  destruct Hlt as [Hlt|[Heq Hlt]]; cbn [fst snd] in *.
  - left. by apply (linspace_increasing _ _ _ _ _ _ Hyb Hy).
  - right. subst i'. split; [reflexivity|].
    by apply (linspace_increasing _ _ _ _ _ _ Hxb Hx).
Qed.

(** X10: the stops of a call without road snapping are the grid points
    [(y[i], x[j])] of pairwise distinct cells [(i, j)] that lie off the
    border of the grid, and no two of these cells are neighbours along a
    row or along a column. *)
Theorem stops_not_adjacent weighted resolution bw self self' l :
  estimate_stops gaussian_kde osrm_nearest weighted false resolution bw self
    = (self', Return l) →
  ∃ x y cells,
    linspace (nth 0 (boundaries self) 0) (nth 1 (boundaries self) 0) resolution
      = Return x ∧
    linspace (nth 2 (boundaries self) 0) (nth 3 (boundaries self) 0) resolution
      = Return y ∧
    l = (λ ij : nat * nat, (nth ij.1 y 0, nth ij.2 x 0)) <$> cells ∧
    NoDup cells ∧
    ∀ i j, (i, j) ∈ cells →
      (0 < i ∧ S i < length y ∧ 0 < j ∧ S j < length x)%nat ∧
      ((i, S j) ∉ cells) ∧ ((S i, j) ∉ cells).
Proof.
  intros (x & y & data & Hx & Hy & -> & Hdata & _ & _ & ->)
    %estimate_stops_candidates.
  exists x, y, (candidate_cells data). split_and!; try done.
  - apply list_fmap_ext. intros _ [i j] Hin%list_elem_of_lookup_2.
    apply (candidate_cells_lt data _ _ _ _ Hdata) in Hin as [Hi Hj].
    cbn [fst snd]. by rewrite entry_meshgrid_1, entry_meshgrid_2.
  - apply sorted_NoDup, nonzero_cells_sorted.
  - intros i j Hin. split; [|by apply (candidates_not_adjacent data _ _ _ _ Hdata)].
    apply (candidate_cells_strict_max data _ _ _ _ Hdata) in Hin as [Hb _].
    by rewrite (rect_length _ _ _ Hdata) in Hb.
Qed.

End Calls.

(** ** Construction and assignment *)

(** X11: the two assignments commute, and constructing an estimator from
    a point set of one point or more and weights gives the state that
    assigning these to any estimator gives: no attribute of an estimator
    survives the assignment of both. *)
Theorem assignments_rebuild_estimator self p g w :
  (points_setter (Some (p :: g)) (weights_setter w self).1).1
  = (weights_setter w (points_setter (Some (p :: g)) self).1).1 ∧
  __init__ (Some (p :: g)) w
  = Return (weights_setter w (points_setter (Some (p :: g)) self).1).1.
Proof.
  split.
  - by rewrite !points_setter_cons.
  - unfold __init__, m_bind at 1 2.
    change (set__stop_prob None ?s) with (s, Return (A:=unit) tt) at 1.
    cbv beta iota. by rewrite !points_setter_cons.
Qed.

(** ** Distances to routes *)

(** X12: more routes never increase a distance.  When [route_dist]
    returns for [routes] and every route of [routes] is among [routes'],
    it returns for [routes'] as well, with a distance for each point that
    is at most the one for [routes]. *)
Theorem route_dist_more_routes (Route : Type) (distance : Point → Route → Q)
    (routes routes' : list Route) (self : Estimator) (d1 : list Q) :
  (∀ r, r ∈ routes → r ∈ routes') →
  route_dist Route distance routes self = (self, Return d1) →
  ∃ d2, route_dist Route distance routes' self = (self, Return d2) ∧
        Forall2 Qle d2 d1.
Proof.
  unfold route_dist, m_bind, get, lift. intros Hsub [= H1].
  destruct (mapM_py_rel Qle _
              (λ point : Point, py_min (distance point <$> routes'))
              _ _ (λ p a, min_dist_subseteq Route distance routes routes' p a Hsub)
              H1) as (d2 & -> & Hle).
  by exists d2.
Qed.

(** X13: [route_dist] depends on which routes are given, not on their
    order or on repetitions: for two collections with the same routes it
    returns for both or for neither, and the distances are equal as
    numbers. *)
Theorem route_dist_same_routes (Route : Type) (distance : Point → Route → Q)
    (routes routes' : list Route) (self : Estimator) (d1 : list Q) :
  (∀ r, r ∈ routes ↔ r ∈ routes') →
  route_dist Route distance routes self = (self, Return d1) →
  ∃ d2, route_dist Route distance routes' self = (self, Return d2) ∧
        Forall2 Qeq d2 d1.
Proof.
  unfold route_dist, m_bind, get, lift. intros Hsame [= H1].
  destruct (mapM_py_rel Qeq
              (λ point : Point, py_min (distance point <$> routes))
              (λ point : Point, py_min (distance point <$> routes'))
              (points self) d1) as (d2 & -> & Heq); [|done|by exists d2].
  intros p a Ha.
  destruct (min_dist_subseteq Route distance routes routes' p a
              (λ r, proj1 (Hsame r)) Ha) as (b & Hb & Hba).
  destruct (min_dist_subseteq Route distance routes' routes p b
              (λ r, proj2 (Hsame r)) Hb) as (a' & Ha' & Hab).
  exists b. split; [done|].
  rewrite Ha in Ha'. injection Ha' as <-. by apply Qle_antisym.
Qed.

(** ** The further properties on the sample inputs *)

Lemma negative_resolution_raises_witness :
  (-1 < 0)%Z ∧
  estimate_stops Sample.fit Sample.offline true false (-1) (1 # 10)
    Sample.estimator
  = (Sample.estimator, Raise ValueError).
Proof.
  assert (-1 < 0)%Z as H by lia.
  split; [exact H|].
  exact (negative_resolution_raises Sample.fit Sample.offline true false (-1)
           (1 # 10) Sample.estimator H).
Defined.

Lemma stale_surface_raises_witness :
  ∃ a, _stop_prob Sample.first_run.1 = Some a ∧
       (2 ≤ length (ravel a))%nat ∧
       estimate_stops Sample.fit Sample.offline false true 7 (1 # 5)
         Sample.first_run.1
       = (Sample.first_run.1, Raise ValueError).
Proof.
  eexists.
  assert (∀ (P Q R : Prop), P → (P → Q) → (P → Q → R) → P ∧ Q ∧ R) as Hand
    by tauto.
  apply Hand.
  - vm_compute. reflexivity.
  - intros _. vm_compute. lia.
  - intros H1 H2.
    exact (stale_surface_raises Sample.fit Sample.offline false true 7 (1 # 5)
             Sample.first_run.1 _ H1 H2).
Defined.

Lemma grid_of_two_has_no_stops_witness :
  _stop_prob Sample.estimator = None ∧ (1 ≤ 2 ≤ 2)%Z ∧
  (estimate_stops Sample.fit Sample.offline true false 2 (1 # 10)
     Sample.estimator).2 = Return [].
Proof.
  assert (1 ≤ 2 ≤ 2)%Z as H by lia.
  split; [reflexivity|]. split; [exact H|].
  exact (grid_of_two_has_no_stops Sample.fit Sample.offline true 2 (1 # 10)
           Sample.estimator
           (weightedkde.density weightedkde.bell [0; 2; 0; 2; 1] [0; 0; 2; 2; 1]
              (replicate 5 1) (1 # 10))
           eq_refl H eq_refl).
Defined.

Lemma fitted_surface_on_grid_witness :
  _stop_prob Sample.estimator = None ∧ (0 ≤ 3)%Z ∧
  ∃ x y data,
    linspace 0 2 3 = Return x ∧ linspace 0 2 3 = Return y ∧
    stop_prob Sample.first_run.1 = Some data ∧
    rect data 3 3 ∧
    ∀ i j, (i < 3)%nat → (j < 3)%nat →
           entry data i j
           = weightedkde.density weightedkde.bell [0; 2; 0; 2; 1]
               [0; 0; 2; 2; 1] (replicate 5 1) (1 # 10) (nth j x 0) (nth i y 0).
Proof.
  assert (0 ≤ 3)%Z as H by lia.
  split; [reflexivity|]. split; [exact H|].
  exact (fitted_surface_on_grid Sample.fit Sample.offline true false 3 (1 # 10)
           Sample.estimator _ eq_refl H eq_refl).
Defined.


Lemma snap_without_stops_raises_witness :
  estimate_stops Sample.fit (Sample.online 3) true false 2 (1 # 10)
    Sample.estimator
  = ((estimate_stops Sample.fit (Sample.online 3) true false 2 (1 # 10)
        Sample.estimator).1, Return []) ∧
  estimate_stops Sample.fit (Sample.online 3) true true 2 (1 # 10)
    Sample.estimator
  = ((estimate_stops Sample.fit (Sample.online 3) true false 2 (1 # 10)
        Sample.estimator).1, Raise ValueError).
Proof.
  assert (estimate_stops Sample.fit (Sample.online 3) true false 2 (1 # 10)
            Sample.estimator
          = ((estimate_stops Sample.fit (Sample.online 3) true false 2 (1 # 10)
                Sample.estimator).1, Return [])) as H
    by (vm_compute; reflexivity).
  split; [exact H|].
  exact (snap_without_stops_raises Sample.fit (Sample.online 3) true 2 (1 # 10)
           Sample.estimator _ H).
Defined.

Lemma stops_in_row_major_order_witness :
  nth 0 (boundaries Sample.estimator2) 0 < nth 1 (boundaries Sample.estimator2) 0 ∧
  nth 2 (boundaries Sample.estimator2) 0 < nth 3 (boundaries Sample.estimator2) 0 ∧
  Sample.second_run
  = (Sample.second_run.1, Return [(4 # 4, 12 # 4); (12 # 4, 4 # 4)]) ∧
  StronglySorted yx_lt [(4 # 4, 12 # 4); (12 # 4, 4 # 4)].
Proof.
  assert (nth 0 (boundaries Sample.estimator2) 0
          < nth 1 (boundaries Sample.estimator2) 0) as H1 by reflexivity.
  assert (nth 2 (boundaries Sample.estimator2) 0
          < nth 3 (boundaries Sample.estimator2) 0) as H2 by reflexivity.
  assert (Sample.second_run
          = (Sample.second_run.1, Return [(4 # 4, 12 # 4); (12 # 4, 4 # 4)]))
    as H3 by (vm_compute; reflexivity).
  split; [exact H1|]. split; [exact H2|]. split; [exact H3|].
  exact (stops_in_row_major_order Sample.fit Sample.offline true 5 (1 # 10)
           Sample.estimator2 Sample.second_run.1 _ H1 H2 H3).
Defined.

Lemma stops_not_adjacent_witness :
  Sample.second_run
  = (Sample.second_run.1, Return [(4 # 4, 12 # 4); (12 # 4, 4 # 4)]) ∧
  ∃ x y cells,
    linspace 0 4 5 = Return x ∧ linspace 0 4 5 = Return y ∧
    [(4 # 4, 12 # 4); (12 # 4, 4 # 4)]
    = (λ ij : nat * nat, (nth ij.1 y 0, nth ij.2 x 0)) <$> cells ∧
    NoDup cells ∧
    ∀ i j, (i, j) ∈ cells →
      (0 < i ∧ S i < length y ∧ 0 < j ∧ S j < length x)%nat ∧
      ((i, S j) ∉ cells) ∧ ((S i, j) ∉ cells).
Proof.
  assert (Sample.second_run
          = (Sample.second_run.1, Return [(4 # 4, 12 # 4); (12 # 4, 4 # 4)]))
    as H by (vm_compute; reflexivity).
  split; [exact H|].
  exact (stops_not_adjacent Sample.fit Sample.offline true 5 (1 # 10)
           Sample.estimator2 Sample.second_run.1 _ H).
Defined.

Lemma route_dist_more_routes_witness :
  (∀ r, r ∈ [0; 3] → r ∈ [3; 1; 0]) ∧
  route_dist Q Sample.line_distance [0; 3] Sample.estimator
  = (Sample.estimator, Return [0; 1; 0; 1; 1]) ∧
  ∃ d2, route_dist Q Sample.line_distance [3; 1; 0] Sample.estimator
        = (Sample.estimator, Return d2) ∧
        Forall2 Qle d2 [0; 1; 0; 1; 1].
Proof.
  assert (∀ r : Q, r ∈ [0; 3] → r ∈ [3; 1; 0]) as Hsub.
  { intros r Hr. apply elem_of_cons in Hr as [->|Hr].
    - do 2 right. left.
    - apply list_elem_of_singleton in Hr as ->. left. }
  assert (route_dist Q Sample.line_distance [0; 3] Sample.estimator
          = (Sample.estimator, Return [0; 1; 0; 1; 1])) as H
    by (vm_compute; reflexivity).
  split; [exact Hsub|]. split; [exact H|].
  exact (route_dist_more_routes Q Sample.line_distance [0; 3] [3; 1; 0]
           Sample.estimator _ Hsub H).
Defined.

Lemma route_dist_same_routes_witness :
  (∀ r, r ∈ [0; 3] ↔ r ∈ [3; 0; 3]) ∧
  route_dist Q Sample.line_distance [0; 3] Sample.estimator
  = (Sample.estimator, Return [0; 1; 0; 1; 1]) ∧
  ∃ d2, route_dist Q Sample.line_distance [3; 0; 3] Sample.estimator
        = (Sample.estimator, Return d2) ∧
        Forall2 Qeq d2 [0; 1; 0; 1; 1].
Proof.
  assert (∀ r : Q, r ∈ [0; 3] ↔ r ∈ [3; 0; 3]) as Hsame.
  { intros r. rewrite !elem_of_cons, !elem_of_nil. tauto. }
  assert (route_dist Q Sample.line_distance [0; 3] Sample.estimator
          = (Sample.estimator, Return [0; 1; 0; 1; 1])) as H
    by (vm_compute; reflexivity).
  split; [exact Hsame|]. split; [exact H|].
  exact (route_dist_same_routes Q Sample.line_distance [0; 3] [3; 0; 3]
           Sample.estimator _ Hsame H).
Defined.
